(** * Bizmate front-end: the conversation / session store

    A shallow embedding of [src/store/chat-store.ts] (the zustand store
    [useChatStore]) and the properties of its reconciliation logic.

    Conventions of the embedding.
    - A JavaScript string is its sequence of UTF-16 code units, a
      [list N]; [lit] turns a Rocq string literal into one.
    - [string | null] is [option jsstring]; JavaScript truthiness of a
      string (non-empty) is the boolean [truthy].
    - Every asynchronous operation is run to completion on the outcome of
      its network call, which is an argument of the operation
      ([Failed] when the request throws, [Ok r] when it resolves to [r]).
    - [new Date()] and [uuidv4()] read the environment: the clock value and
      the random bits are arguments of the operation that reads them. *)

From Stdlib Require Import List String Ascii NArith ZArith Bool Lia.
Import ListNotations.

Local Open Scope Z_scope.

(* ================================================================== *)
(** ** JavaScript strings *)
(* ================================================================== *)

Module JS.

Definition jsstring := list N.

Definition lit (s : string) : jsstring :=
  List.map N_of_ascii (list_ascii_of_string s).

(** [a === b] on strings. *)
Fixpoint streq (a b : jsstring) : bool :=
  match a, b with
  | [], [] => true
  | x :: a', y :: b' => N.eqb x y && streq a' b'
  | _, _ => false
  end.

(** Truthiness of a string value: the empty string is falsy. *)
Definition truthy (s : jsstring) : bool :=
  match s with [] => false | _ :: _ => true end.

(** [s.length] *)
Definition length (s : jsstring) : Z := Z.of_nat (List.length s).

(** [s.substring(a, b)] for non-negative arguments: the arguments are
    clamped to the length and swapped when out of order. *)
Definition substring (s : jsstring) (a b : Z) : jsstring :=
  let lo := Z.to_nat (Z.min a b) in
  let hi := Z.to_nat (Z.max a b) in
  firstn (hi - lo) (skipn lo s).

(** Left-to-right scan remembering the last index at which [c] was seen. *)
Fixpoint scanLast (c : N) (s : jsstring) (i best : Z) : Z :=
  match s with
  | [] => best
  | x :: s' => scanLast c s' (i + 1) (if N.eqb x c then i else best)
  end.

(** [s.lastIndexOf(c, from)] for a one-character search string and a
    non-negative [from]: the greatest index [k <= from] with [s[k] = c],
    or [-1]. *)
Definition lastIndexOf (s : jsstring) (c : N) (from : Z) : Z :=
  scanLast c (firstn (Z.to_nat (from + 1)) s) 0 (-1).

(** White space and line terminators, the characters [trim] strips. *)
Definition isWhiteSpace (c : N) : bool :=
  ((9 <=? c) && (c <=? 13) || (c =? 32) || (c =? 160) || (c =? 5760)
   || (8192 <=? c) && (c <=? 8202)
   || (c =? 8232) || (c =? 8233) || (c =? 8239) || (c =? 8287)
   || (c =? 12288) || (c =? 65279))%N.

Fixpoint trimStart (s : jsstring) : jsstring :=
  match s with
  | [] => []
  | c :: s' => if isWhiteSpace c then trimStart s' else s
  end.

Definition trimEnd (s : jsstring) : jsstring :=
  rev (trimStart (rev s)).

(** [s.trim()] *)
Definition trim (s : jsstring) : jsstring := trimEnd (trimStart s).

End JS.

Import JS.

(* ================================================================== *)
(** ** Title derivation *)
(* ================================================================== *)

Definition breakPoints : list N :=
  Eval cbv in lit " ,.?!".

(** The [for (const char of breakPoints)] loop of
    [createTitleFromContent]: the first character of the list whose last
    occurrence at or before index 30 lies after index 10 decides. *)
Fixpoint findBreakPoint (content : jsstring) (chars : list N)
         (bestBreakPoint : Z) : Z :=
  match chars with
  | [] => bestBreakPoint
  | char :: rest =>
      let index := lastIndexOf content char 30 in
      if 10 <? index then index + 1
      else findBreakPoint content rest bestBreakPoint
  end.

Definition createTitleFromContent (content : jsstring) : jsstring :=
  if JS.length content <=? 30 then content
  else
    let bestBreakPoint := findBreakPoint content breakPoints 30 in
    trim (substring content 0 bestBreakPoint) ++ lit "...".

Arguments createTitleFromContent : simpl never.


(* ================================================================== *)
(** ** The session-id test of [sendMessage] *)
(* ================================================================== *)

(** The class [[0-9a-f]] under the [i] flag. *)
Definition isHexDigit (c : N) : bool :=
  ((48 <=? c) && (c <=? 57) || (97 <=? c) && (c <=? 102)
   || (65 <=? c) && (c <=? 70))%N.

Definition isDash (c : N) : bool := (c =? 45)%N.

(** [cls{n}] at the head of the input: the rest of the input on a match. *)
Fixpoint matchRep (cls : N -> bool) (n : nat) (s : jsstring)
  : option jsstring :=
  match n with
  | O => Some s
  | S n' =>
      match s with
      | c :: s' => if cls c then matchRep cls n' s' else None
      | [] => None
      end
  end.

(** A sequence of counted classes between [^] and [$]. *)
Fixpoint matchSeq (pat : list ((N -> bool) * nat)) (s : jsstring) : bool :=
  match pat with
  | [] => match s with [] => true | _ :: _ => false end
  | (cls, n) :: pat' =>
      match matchRep cls n s with
      | Some s' => matchSeq pat' s'
      | None => false
      end
  end.

(** [/^[0-9a-f]{8}-[0-9a-f]{4}-[0-9a-f]{4}-[0-9a-f]{4}-[0-9a-f]{12}$/i] *)
Definition uuidPattern : list ((N -> bool) * nat) :=
  [ (isHexDigit, 8%nat); (isDash, 1%nat); (isHexDigit, 4%nat);
    (isDash, 1%nat); (isHexDigit, 4%nat); (isDash, 1%nat);
    (isHexDigit, 4%nat); (isDash, 1%nat); (isHexDigit, 12%nat) ].

Definition uuidPatternTest (s : jsstring) : bool := matchSeq uuidPattern s.

(* ================================================================== *)
(** ** Temporary identifiers *)
(* ================================================================== *)

(** [uuidv4] is the [v4] export of the [uuid] package, which
    [chat-store.ts] imports; the package is not among the sources.  The
    definitions of this section model it. *)

(** Modelled from the spec: the lower-case hexadecimal digit of a nibble. *)
Definition hexDigit (n : N) : N :=
  nth (N.to_nat n) (lit "0123456789abcdef") 0%N.

(** Modelled from the spec: the two hexadecimal digits of a byte. *)
Definition byteToHex (b : N) : jsstring :=
  [hexDigit (N.land (N.shiftr b 4) 15); hexDigit (N.land b 15)].

(** Modelled from the spec: byte [i] of the sixteen random bytes, the 128
    low bits of [rnd] with the most significant byte first. *)
Definition rndByte (rnd : N) (i : N) : N :=
  N.land (N.shiftr rnd (8 * (15 - i))) 255.

(** Modelled from the spec: the version nibble of byte 6 is forced to 4
    and the two variant bits of byte 8 to [10]. *)
Definition v4Byte (rnd : N) (i : N) : N :=
  let b := rndByte rnd i in
  if (i =? 6)%N then N.lor (N.land b 15) 64
  else if (i =? 8)%N then N.lor (N.land b 63) 128
  else b.

Definition hexBytes (rnd : N) (idx : list N) : jsstring :=
  flat_map (fun i => byteToHex (v4Byte rnd i)) idx.

(** Modelled from the spec: [uuidv4], missing from the sources.  A
    temporary id is a version-4 UUID string: the sixteen bytes written as
    lower-case hexadecimal in groups of 8-4-4-4-12 digits. *)
Definition uuidv4 (rnd : N) : jsstring :=
  (hexBytes rnd [0; 1; 2; 3] ++ lit "-" ++
   hexBytes rnd [4; 5] ++ lit "-" ++
   hexBytes rnd [6; 7] ++ lit "-" ++
   hexBytes rnd [8; 9] ++ lit "-" ++
   hexBytes rnd [10; 11; 12; 13; 14; 15])%N.

Arguments uuidv4 : simpl never.

(* ================================================================== *)
(** ** Data model *)
(* ================================================================== *)

Inductive Role := user | assistant.

(** A [Date] is built from the clock ([new Date()]) or from a string
    ([new Date(s)]); the store never inspects one. *)
Inductive Date :=
| DateNow (clock : Z)
| DateOf (s : jsstring).

Module Message.
Record t := mk {
  role : Role;
  content : jsstring;
  timestamp : Date
}.
End Message.

Module UploadedFile.
Inductive Status := uploading | uploaded | processing | error_.
Record t := mk {
  id : jsstring;
  name : jsstring;
  size : Z;
  status : Status;
  s3Key : option jsstring;
  error : option jsstring
}.
End UploadedFile.

Module Session.
Record t := mk {
  session_id : jsstring;
  title : jsstring;
  created_at : jsstring;
  last_updated : jsstring;
  message_count : Z
}.
End Session.

Module ApiMessage.
Record t := mk {
  role : Role;
  content : jsstring
}.
End ApiMessage.

Module HealthResponse.
Record t := mk { status : jsstring }.
End HealthResponse.

(** [sessions] may be missing from the body: [if (response.data.sessions)]. *)
Module SessionsResponse.
Record t := mk { sessions : option (list Session.t) }.
End SessionsResponse.

Module Metadata.
Record t := mk {
  created_at : jsstring;
  last_updated : jsstring;
  message_count : Z;
  title : jsstring
}.
End Metadata.

(** [messages] and [metadata] may be missing from the body. *)
Module ConversationResponse.
Record t := mk {
  session_id : jsstring;
  user_id : jsstring;
  messages : option (list ApiMessage.t);
  metadata : option Metadata.t
}.
End ConversationResponse.

Module ChatResponse.
Record t := mk {
  generation : jsstring;
  session_id : jsstring;
  messages : list ApiMessage.t
}.
End ChatResponse.

Module Conversation.
Record t := mk {
  id : jsstring;
  title : jsstring;
  messages : list Message.t;
  createdAt : Date;
  lastUpdatedAt : Date
}.
End Conversation.

(** The body posted to the chat endpoint. *)
Module Payload.
Record t := mk {
  question : jsstring;
  user_id : jsstring;
  session_id : option jsstring
}.
End Payload.

(** Outcome of a network call. *)
Inductive http (A : Type) :=
| Failed
| Ok (data : A).
Arguments Failed {A}.
Arguments Ok {A} data.

Record ChatStore := mkStore {
  conversations : list Conversation.t;
  sessions : list Session.t;
  currentConversationId : option jsstring;
  files : list UploadedFile.t;
  isLoading : bool;
  apiKey : jsstring;
  userId : jsstring;
  apiHost : jsstring;
  isConnected : bool;
  connectionError : option jsstring
}.

(* ================================================================== *)
(** ** The store *)
(* ================================================================== *)

(** [set({ field: v })]: one setter per field the operations write. *)
Definition set_conversations (v : list Conversation.t) (st : ChatStore) :=
  mkStore v (sessions st) (currentConversationId st) (files st)
          (isLoading st) (apiKey st) (userId st) (apiHost st)
          (isConnected st) (connectionError st).

Definition set_sessions (v : list Session.t) (st : ChatStore) :=
  mkStore (conversations st) v (currentConversationId st) (files st)
          (isLoading st) (apiKey st) (userId st) (apiHost st)
          (isConnected st) (connectionError st).

Definition set_currentConversationId (v : option jsstring) (st : ChatStore) :=
  mkStore (conversations st) (sessions st) v (files st)
          (isLoading st) (apiKey st) (userId st) (apiHost st)
          (isConnected st) (connectionError st).

Definition set_isLoading (v : bool) (st : ChatStore) :=
  mkStore (conversations st) (sessions st) (currentConversationId st)
          (files st) v (apiKey st) (userId st) (apiHost st)
          (isConnected st) (connectionError st).

Definition set_apiKey (v : jsstring) (st : ChatStore) :=
  mkStore (conversations st) (sessions st) (currentConversationId st)
          (files st) (isLoading st) v (userId st) (apiHost st)
          (isConnected st) (connectionError st).

Definition set_userId (v : jsstring) (st : ChatStore) :=
  mkStore (conversations st) (sessions st) (currentConversationId st)
          (files st) (isLoading st) (apiKey st) v (apiHost st)
          (isConnected st) (connectionError st).

Definition set_apiHost (v : jsstring) (st : ChatStore) :=
  mkStore (conversations st) (sessions st) (currentConversationId st)
          (files st) (isLoading st) (apiKey st) (userId st) v
          (isConnected st) (connectionError st).

Definition set_isConnected (v : bool) (st : ChatStore) :=
  mkStore (conversations st) (sessions st) (currentConversationId st)
          (files st) (isLoading st) (apiKey st) (userId st) (apiHost st)
          v (connectionError st).

Definition set_connectionError (v : option jsstring) (st : ChatStore) :=
  mkStore (conversations st) (sessions st) (currentConversationId st)
          (files st) (isLoading st) (apiKey st) (userId st) (apiHost st)
          (isConnected st) v.

(** The store as [create] builds it; the two defaults come from
    [apiConfig], which reads the process environment. *)
Definition initialStore (defaultApiKey host : jsstring) : ChatStore :=
  mkStore [] [] None [] false defaultApiKey (lit "") host false None.

(** The string a [string | null] holds when it is truthy. *)
Definition whenTruthy (v : option jsstring) : option jsstring :=
  match v with
  | Some s => if truthy s then Some s else None
  | None => None
  end.

Definition hasId (cid : jsstring) (c : Conversation.t) : bool :=
  streq (Conversation.id c) cid.

Definition hasSessionId (sid : jsstring) (s : Session.t) : bool :=
  streq (Session.session_id s) sid.

Definition setApiKey (key : jsstring) (st : ChatStore) : ChatStore :=
  set_apiKey key st.

Definition setUserId (id : jsstring) (st : ChatStore) : ChatStore :=
  set_currentConversationId None (set_conversations [] (set_userId id st)).

Definition setApiHost (host : jsstring) (st : ChatStore) : ChatStore :=
  set_apiHost host st.

Definition setLoading (loading : bool) (st : ChatStore) : ChatStore :=
  set_isLoading loading st.

Definition loadSessions (response : http SessionsResponse.t)
           (st : ChatStore) : ChatStore :=
  let st := set_isLoading true st in
  match response with
  | Ok data =>
      match SessionsResponse.sessions data with
      | Some l => set_isLoading false (set_sessions l st)
      | None => st
      end
  | Failed => set_isLoading false st
  end.

Definition connect (healthCheck : http HealthResponse.t)
           (sessionsResponse : http SessionsResponse.t)
           (st : ChatStore) : ChatStore * bool :=
  let st := set_connectionError None (set_isLoading true st) in
  match healthCheck with
  | Ok data =>
      if streq (HealthResponse.status data) (lit "healthy") then
        let st :=
          set_currentConversationId None
            (set_conversations []
               (set_isLoading false (set_isConnected true st))) in
        (loadSessions sessionsResponse st, true)
      else
        (set_connectionError (Some (lit "API is not healthy"))
           (set_isLoading false (set_isConnected false st)), false)
  | Failed =>
      (set_connectionError
         (Some (lit "Failed to connect to API. Possible CORS issue. Try using the app in a non-development environment."))
         (set_isLoading false (set_isConnected false st)), false)
  end.

Definition loadConversation (response : http ConversationResponse.t)
           (sessionId : jsstring) (st : ChatStore) : ChatStore :=
  let st := set_isLoading true st in
  match response with
  | Ok data =>
      match ConversationResponse.messages data with
      | Some msgs =>
          match ConversationResponse.metadata data with
          | Some metadata =>
              let messages :=
                List.map
                  (fun msg =>
                     Message.mk (ApiMessage.role msg) (ApiMessage.content msg)
                                (DateOf (Metadata.created_at metadata)))
                  msgs in
              let conversation :=
                Conversation.mk sessionId
                  (if truthy (Metadata.title metadata)
                   then Metadata.title metadata else lit "Conversation")
                  messages
                  (DateOf (Metadata.created_at metadata))
                  (DateOf (Metadata.last_updated metadata)) in
              set_isLoading false
                (set_currentConversationId (Some sessionId)
                   (set_conversations
                      (filter (fun c => negb (hasId sessionId c))
                              (conversations st) ++ [conversation])
                      st))
          | None =>
              (* reading [metadata.created_at] throws: the catch block *)
              set_isLoading false st
          end
      | None => st
      end
  | Failed => set_isLoading false st
  end.

Definition startNewConversation (st : ChatStore) : ChatStore :=
  set_currentConversationId None st.

Definition titleFor (role : Role) (content : jsstring) : jsstring :=
  match role with
  | user => createTitleFromContent content
  | assistant => lit "New conversation"
  end.

Definition isUser (role : Role) : bool :=
  match role with user => true | assistant => false end.

(** The message-append algorithm.  [now] is the clock and [rnd] the random
    bits [uuidv4] draws when it is called. *)
Definition addMessage (now : Date) (rnd : N) (content : jsstring)
           (role : Role) (state : ChatStore) : ChatStore :=
  let message := Message.mk role content now in
  let conversations := conversations state in
  match whenTruthy (currentConversationId state) with
  | None =>
      let tempId := uuidv4 rnd in
      set_currentConversationId (Some tempId)
        (set_conversations
           (Conversation.mk tempId (titleFor role content) [message] now now
              :: conversations)
           state)
  | Some currentConversationId =>
      match find (hasId currentConversationId) conversations with
      | Some existingConversation =>
          set_conversations
            (List.map
               (fun conv =>
                  if hasId currentConversationId conv then
                    let updatedMessages :=
                      Conversation.messages conv ++ [message] in
                    let shouldUpdateTitle :=
                      isUser role
                      && ((List.length (Conversation.messages conv) =? 0)%nat
                          || streq (Conversation.title conv)
                                   (lit "New conversation")
                          || streq (Conversation.title conv) (lit "New Chat")) in
                    Conversation.mk (Conversation.id conv)
                      (if shouldUpdateTitle
                       then createTitleFromContent content
                       else Conversation.title conv)
                      updatedMessages
                      (Conversation.createdAt conv)
                      now
                  else conv)
               conversations)
            state
      | None =>
          let session := find (hasSessionId currentConversationId)
                              (sessions state) in
          set_conversations
            (Conversation.mk currentConversationId
               (match session with
                | Some s =>
                    if truthy (Session.title s) then Session.title s
                    else titleFor role content
                | None => titleFor role content
                end)
               [message]
               (match session with
                | Some s => DateOf (Session.created_at s)
                | None => now
                end)
               now
               :: conversations)
            state
      end
  end.

(** The request body [sendMessage] builds before it touches the
    conversations. *)
Definition chatPayload (content : jsstring) (st : ChatStore) : Payload.t :=
  let currentConversationId := currentConversationId st in
  Payload.mk content (userId st)
    (match whenTruthy currentConversationId with
     | Some cid =>
         if existsb (hasSessionId cid) (sessions st) && uuidPatternTest cid
         then Some cid else None
     | None => None
     end).

Definition sameId (v : option jsstring) (s : jsstring) : bool :=
  match v with
  | Some c => streq c s
  | None => false
  end.

Definition rekey (from to : jsstring) (c : Conversation.t) : Conversation.t :=
  if hasId from c then
    Conversation.mk to (Conversation.title c) (Conversation.messages c)
                    (Conversation.createdAt c) (Conversation.lastUpdatedAt c)
  else c.

(** [sendMessage]: the posted body and the store once the promise has
    settled.  [now1], [rnd1] serve the append of the user message, [now2],
    [rnd2] that of the assistant message; [response] is the outcome of the
    chat request and [sessionsResponse] that of the session refresh.
    [currentConversationId] below is the constant the function destructures
    from [get()] on entry, not the field of the state being updated. *)
Definition sendMessage (now1 : Date) (rnd1 : N) (now2 : Date) (rnd2 : N)
           (content : jsstring)
           (response : http ChatResponse.t)
           (sessionsResponse : http SessionsResponse.t)
           (st : ChatStore) : Payload.t * ChatStore :=
  let currentConversationId := currentConversationId st in
  let st := set_isLoading true st in
  let payload := chatPayload content st in
  let st := addMessage now1 rnd1 content user st in
  match response with
  | Ok data =>
      let st :=
        if truthy (ChatResponse.generation data) then
          let st :=
            addMessage now2 rnd2 (ChatResponse.generation data) assistant st in
          let receivedSessionId := ChatResponse.session_id data in
          if truthy receivedSessionId
             && (negb (match whenTruthy currentConversationId with
                       | Some _ => true | None => false end)
                 || negb (sameId currentConversationId receivedSessionId))
          then
            let st :=
              match whenTruthy currentConversationId with
              | Some cid =>
                  set_currentConversationId (Some receivedSessionId)
                    (set_conversations
                       (List.map (rekey cid receivedSessionId)
                                 (conversations st))
                       st)
              | None => set_currentConversationId (Some receivedSessionId) st
              end in
            loadSessions sessionsResponse st
          else st
        else st in
      (payload, set_isLoading false st)
  | Failed => (payload, set_isLoading false st)
  end.

Definition setCurrentConversation (response : http ConversationResponse.t)
           (id : jsstring) (st : ChatStore) : ChatStore :=
  match find (hasId id) (conversations st) with
  | Some conversation => set_currentConversationId (Some id) st
  | None => loadConversation response id st
  end.

Definition deleteSession (response : http unit) (sessionId : jsstring)
           (st : ChatStore) : ChatStore :=
  let st := set_isLoading true st in
  match response with
  | Ok _ =>
      let newConversations :=
        filter (fun conv => negb (hasId sessionId conv)) (conversations st) in
      let newSessions :=
        filter (fun session => negb (hasSessionId sessionId session))
               (sessions st) in
      set_isLoading false
        (set_currentConversationId
           (if sameId (currentConversationId st) sessionId
            then None else currentConversationId st)
           (set_sessions newSessions (set_conversations newConversations st)))
  | Failed => set_isLoading false st
  end.

Definition deleteConversation (response : http unit) (id : jsstring)
           (st : ChatStore) : ChatStore :=
  deleteSession response id st.

(** [Partial<UploadedFile>]: the fields an update carries. *)
Module FileUpdates.
Record t := mk {
  id : option jsstring;
  name : option jsstring;
  size : option Z;
  status : option UploadedFile.Status;
  s3Key : option (option jsstring);
  error : option (option jsstring)
}.
End FileUpdates.

Definition orElse {A : Type} (v : option A) (d : A) : A :=
  match v with Some x => x | None => d end.

Definition set_files (v : list UploadedFile.t) (st : ChatStore) :=
  mkStore (conversations st) (sessions st) (currentConversationId st) v
          (isLoading st) (apiKey st) (userId st) (apiHost st)
          (isConnected st) (connectionError st).

Definition addFile (file : UploadedFile.t) (st : ChatStore) : ChatStore :=
  set_files (files st ++ [file]) st.

Definition updateFile (id : jsstring) (updates : FileUpdates.t)
           (st : ChatStore) : ChatStore :=
  set_files
    (List.map
       (fun file =>
          if streq (UploadedFile.id file) id then
            UploadedFile.mk
              (orElse (FileUpdates.id updates) (UploadedFile.id file))
              (orElse (FileUpdates.name updates) (UploadedFile.name file))
              (orElse (FileUpdates.size updates) (UploadedFile.size file))
              (orElse (FileUpdates.status updates) (UploadedFile.status file))
              (orElse (FileUpdates.s3Key updates) (UploadedFile.s3Key file))
              (orElse (FileUpdates.error updates) (UploadedFile.error file))
          else file)
       (files st))
    st.

Definition removeFile (id : jsstring) (st : ChatStore) : ChatStore :=
  set_files
    (filter (fun file => negb (streq (UploadedFile.id file) id)) (files st))
    st.

(** The ids of the conversations, in list order. *)
Definition idsOf (l : list Conversation.t) : list jsstring :=
  List.map Conversation.id l.

Definition conversationIds (st : ChatStore) : list jsstring :=
  idsOf (conversations st).

(** One call of a store operation, with what the environment answers. *)
Inductive Op :=
| SetApiKey (key : jsstring)
| SetUserId (id : jsstring)
| SetApiHost (host : jsstring)
| SetLoading (loading : bool)
| Connect (healthCheck : http HealthResponse.t)
          (sessionsResponse : http SessionsResponse.t)
| LoadSessions (response : http SessionsResponse.t)
| LoadConversation (response : http ConversationResponse.t)
                   (sessionId : jsstring)
| SendMessage (now1 : Date) (rnd1 : N) (now2 : Date) (rnd2 : N)
              (content : jsstring) (response : http ChatResponse.t)
              (sessionsResponse : http SessionsResponse.t)
| StartNewConversation
| AddMessage (now : Date) (rnd : N) (content : jsstring) (role : Role)
| SetCurrentConversation (response : http ConversationResponse.t)
                         (id : jsstring)
| DeleteConversation (response : http unit) (id : jsstring)
| DeleteSession (response : http unit) (sessionId : jsstring)
| AddFile (file : UploadedFile.t)
| UpdateFile (id : jsstring) (updates : FileUpdates.t)
| RemoveFile (id : jsstring).

Definition step (op : Op) (st : ChatStore) : ChatStore :=
  match op with
  | SetApiKey key => setApiKey key st
  | SetUserId id => setUserId id st
  | SetApiHost host => setApiHost host st
  | SetLoading loading => setLoading loading st
  | Connect h s => fst (connect h s st)
  | LoadSessions r => loadSessions r st
  | LoadConversation r sid => loadConversation r sid st
  | SendMessage now1 rnd1 now2 rnd2 content r s =>
      snd (sendMessage now1 rnd1 now2 rnd2 content r s st)
  | StartNewConversation => startNewConversation st
  | AddMessage now rnd content role => addMessage now rnd content role st
  | SetCurrentConversation r id => setCurrentConversation r id st
  | DeleteConversation r id => deleteConversation r id st
  | DeleteSession r sid => deleteSession r sid st
  | AddFile file => addFile file st
  | UpdateFile id updates => updateFile id updates st
  | RemoveFile id => removeFile id st
  end.

(** Operations run one after the other, each to completion. *)
Fixpoint run (ops : list Op) (st : ChatStore) : ChatStore :=
  match ops with
  | [] => st
  | op :: ops' => run ops' (step op st)
  end.


(* ================================================================== *)
(** ** Vocabulary of the properties *)
(* ================================================================== *)

(** The character at index [k], if any. *)
Definition charAt (s : jsstring) (k : Z) : option N :=
  if k <? 0 then None else nth_error s (Z.to_nat k).

(** [c] occurs at an index after 10 and at or before 30. *)
Definition occursInWindow (c : N) (content : jsstring) : Prop :=
  exists k, 10 < k <= 30 /\ charAt content k = Some c.

(** [p] is the last index at or before 30 that holds [c], and it lies
    after 10. *)
Definition lastInWindow (c : N) (content : jsstring) (p : Z) : Prop :=
  10 < p <= 30 /\ charAt content p = Some c /\
  forall k, p < k <= 30 -> charAt content k <> Some c.

Definition isBoundary (c : N) : bool := existsb (N.eqb c) breakPoints.

(** The title rule as the specification words it: the last boundary
    character of any kind among the indices 11..30 decides.  The index is
    searched downwards from [10 + n]. *)
Fixpoint lastBoundaryFrom (content : jsstring) (n : nat) : option Z :=
  match n with
  | O => None
  | S n' =>
      let k := 10 + Z.of_nat n in
      match charAt content k with
      | Some c => if isBoundary c then Some k
                  else lastBoundaryFrom content n'
      | None => lastBoundaryFrom content n'
      end
  end.

Definition lastBoundary (content : jsstring) : option Z :=
  lastBoundaryFrom content 20.

(** [inclusive] chooses whether the prefix up to the boundary keeps the
    boundary character. *)
Definition specTitle (inclusive : bool) (content : jsstring) : jsstring :=
  if JS.length content <=? 30 then content
  else
    match lastBoundary content with
    | Some p =>
        firstn (Z.to_nat (if inclusive then p + 1 else p)) content
        ++ lit "..."
    | None => firstn 30 content ++ lit "..."
    end.

(** No index in [lo+1 .. lo+n] holds [c]. *)
Fixpoint noneInRange (c : N) (s : jsstring) (lo : Z) (n : nat) : bool :=
  match n with
  | O => true
  | S n' =>
      match charAt s (lo + Z.of_nat n) with
      | Some x => negb (N.eqb x c) && noneInRange c s lo n'
      | None => noneInRange c s lo n'
      end
  end.

(** Sample contents. *)
Definition shortContent : jsstring := Eval cbv in lit "Show me Q1 sales".

Definition mixedContent : jsstring :=
  Eval cbv in lit "aaaaaaaaaaaa bbbbbbbbbb,cccccccccccccccc".

Definition commaContent : jsstring :=
  Eval cbv in lit "aaaaaaaaaaaaaaa,bbbbbbbbbbbbbbbbbbbbbbbbb".

Definition plainContent : jsstring :=
  Eval cbv in lit "aaaaaaaaaaaaaaaaaaaaaaaaaaaaaaaaaaaaaaaa".

Definition paddedContent : jsstring :=
  Eval cbv in lit "  aaaaaaaaaaaaaaaaaaaaaaaaaaaaaaaaaaaaaaaa".

(** Sample responses and stores. *)
Definition healthy : HealthResponse.t :=
  Eval cbv in HealthResponse.mk (lit "healthy").

Definition sessionA : jsstring :=
  Eval cbv in lit "11111111-1111-1111-1111-111111111111".

Definition sessionB : jsstring :=
  Eval cbv in lit "22222222-2222-2222-2222-222222222222".

Definition summaryOf (sid : jsstring) : Session.t :=
  Session.mk sid (lit "Quarterly numbers") (lit "2025-01-01T00:00:00Z")
             (lit "2025-01-02T00:00:00Z") 2.

Definition transcriptOf (sid : jsstring) : ConversationResponse.t :=
  ConversationResponse.mk sid (lit "u1")
    (Some [ApiMessage.mk user (lit "Hello"); ApiMessage.mk assistant (lit "Hi")])
    (Some (Metadata.mk (lit "2025-01-01T00:00:00Z") (lit "2025-01-02T00:00:00Z")
                       2 (lit "Quarterly numbers"))).

Definition emptyStore : ChatStore := initialStore (lit "key") (lit "host:8000").

(** Two conversations loaded one after the other into the empty store. *)
Definition twoLoaded : ChatStore :=
  loadConversation (Ok (transcriptOf sessionB)) sessionB
    (loadConversation (Ok (transcriptOf sessionA)) sessionA
       (loadSessions
          (Ok (SessionsResponse.mk
                 (Some [summaryOf sessionA; summaryOf sessionB])))
          emptyStore)).

(** The canonical textual form of a UUID: five groups of 8, 4, 4, 4 and
    12 hexadecimal digits separated by hyphens. *)
Definition hexGroup (n : nat) (g : jsstring) : Prop :=
  List.length g = n /\ Forall (fun c => isHexDigit c = true) g.

Definition canonicalUuid (s : jsstring) : Prop :=
  exists g1 g2 g3 g4 g5,
    s = g1 ++ lit "-" ++ g2 ++ lit "-" ++ g3 ++ lit "-" ++ g4 ++ lit "-" ++ g5
    /\ hexGroup 8 g1 /\ hexGroup 4 g2 /\ hexGroup 4 g3 /\ hexGroup 4 g4
    /\ hexGroup 12 g5.

(** The variant digit of a version-4 UUID is one of 8, 9, a, b. *)
Definition isVariantDigit (c : N) : bool :=
  ((c =? 56) || (c =? 57) || (c =? 97) || (c =? 98))%N.

(** The session id that [chatPayload] would send is listed in [sessions]. *)
Definition listed (sid : jsstring) (st : ChatStore) : Prop :=
  exists s, In s (sessions st) /\ Session.session_id s = sid.

(** A locally chosen id that is not a UUID, and a store in which it is
    current and even listed among the sessions. *)
Definition tempXyz : jsstring := Eval cbv in lit "temp-xyz".

Definition onTempXyz : ChatStore :=
  set_currentConversationId (Some tempXyz)
    (set_sessions [summaryOf sessionA; summaryOf tempXyz] emptyStore).

Definition onSessionA : ChatStore :=
  set_currentConversationId (Some sessionA)
    (set_sessions [summaryOf sessionA; summaryOf tempXyz] emptyStore).

Definition sessionC : jsstring :=
  Eval cbv in lit "a1b2c3d4-e5f6-4a7b-8c9d-0e1f2a3b4c5d".

Definition replyWith (sid : jsstring) : ChatResponse.t :=
  ChatResponse.mk (lit "Here are your Q1 results") sid [].

Definition refreshed (sid : jsstring) : http SessionsResponse.t :=
  Ok (SessionsResponse.mk (Some [summaryOf sid])).

(** At most one conversation per id. *)
Definition uniqueIds (st : ChatStore) : Prop := NoDup (conversationIds st).

(** The id a minting append would draw is not in use. *)
Definition mintsFresh (rnd : N) (st : ChatStore) : Prop :=
  whenTruthy (currentConversationId st) = None ->
  ~ In (uuidv4 rnd) (conversationIds st).

(** The session id of a chat response is the current id or keys no local
    conversation. *)
Definition answersInPlace (response : http ChatResponse.t) (st : ChatStore)
  : Prop :=
  forall data,
    response = Ok data ->
    currentConversationId st = Some (ChatResponse.session_id data)
    \/ ~ In (ChatResponse.session_id data) (conversationIds st).

(** The environment of one operation call keeps ids apart. *)
Definition keepsIdsApart (op : Op) (st : ChatStore) : Prop :=
  match op with
  | SendMessage now1 rnd1 now2 rnd2 content response sessionsResponse =>
      mintsFresh rnd1 st /\ answersInPlace response st
  | AddMessage now rnd content role => mintsFresh rnd st
  | _ => True
  end.

(** Every call of a run keeps ids apart in the store it is made on. *)
Fixpoint runKeepsIdsApart (ops : list Op) (st : ChatStore) : Prop :=
  match ops with
  | [] => True
  | op :: ops' => keepsIdsApart op st /\ runKeepsIdsApart ops' (step op st)
  end.

(** A run from the empty store after which two conversations share an id. *)
Definition collidingRun : list Op :=
  [ LoadSessions
      (Ok (SessionsResponse.mk (Some [summaryOf sessionA; summaryOf sessionB])));
    LoadConversation (Ok (transcriptOf sessionA)) sessionA;
    LoadConversation (Ok (transcriptOf sessionB)) sessionB;
    SendMessage (DateNow 1) 7 (DateNow 2) 8 shortContent
                (Ok (replyWith sessionA)) (refreshed sessionA) ].

(* ================================================================== *)
(** ** Request addresses *)
(* ================================================================== *)

(** The characters [encodeURIComponent] leaves as they are: letters,
    digits and [- _ . ! ~ * ' ( )]. *)
Definition isUriUnreserved (c : N) : bool :=
  ((48 <=? c) && (c <=? 57) || (65 <=? c) && (c <=? 90)
   || (97 <=? c) && (c <=? 122)
   || (c =? 45) || (c =? 95) || (c =? 46) || (c =? 33) || (c =? 126)
   || (c =? 42) || (c =? 39) || (c =? 40) || (c =? 41))%N.

Definition upperHexDigit (n : N) : N :=
  nth (N.to_nat n) (lit "0123456789ABCDEF") 0%N.

(** ["%XX"] for one octet. *)
Definition percentOctet (b : N) : jsstring :=
  [37%N; upperHexDigit (N.land (N.shiftr b 4) 15); upperHexDigit (N.land b 15)].

(** The UTF-8 octets of a code point. *)
Definition utf8Octets (cp : N) : list N :=
  if (cp <? 128)%N then [cp]
  else if (cp <? 2048)%N then
    [N.lor 192 (N.shiftr cp 6); N.lor 128 (N.land cp 63)]
  else if (cp <? 65536)%N then
    [N.lor 224 (N.shiftr cp 12); N.lor 128 (N.land (N.shiftr cp 6) 63);
     N.lor 128 (N.land cp 63)]
  else
    [N.lor 240 (N.shiftr cp 18); N.lor 128 (N.land (N.shiftr cp 12) 63);
     N.lor 128 (N.land (N.shiftr cp 6) 63); N.lor 128 (N.land cp 63)].

Definition percentEncode (cp : N) : jsstring :=
  flat_map percentOctet (utf8Octets cp).

Definition isHighSurrogate (c : N) : bool := ((55296 <=? c) && (c <=? 56319))%N.
Definition isLowSurrogate (c : N) : bool := ((56320 <=? c) && (c <=? 57343))%N.

Definition prepend (p : jsstring) (r : option jsstring) : option jsstring :=
  match r with Some s => Some (p ++ s) | None => None end.

(** [encodeURIComponent(s)]; [None] is the [URIError] thrown on a
    surrogate code unit that is not half of a pair. *)
Fixpoint encodeURIComponent (s : jsstring) : option jsstring :=
  match s with
  | [] => Some []
  | c :: rest =>
      if isUriUnreserved c then prepend [c] (encodeURIComponent rest)
      else if isLowSurrogate c then None
      else if isHighSurrogate c then
        match rest with
        | d :: rest' =>
            if isLowSurrogate d then
              prepend
                (percentEncode ((c - 55296) * 1024 + (d - 56320) + 65536)%N)
                (encodeURIComponent rest')
            else None
        | [] => None
        end
      else prepend (percentEncode c) (encodeURIComponent rest)
  end.

(** [getApiUrl(host, endpoint)]; [isDev] is
    [process.env.NODE_ENV === 'development'], and [None] the exception of
    [encodeURIComponent], which every caller catches as a failed
    request. *)
Definition getApiUrl (isDev : bool) (host endpoint : jsstring)
  : option jsstring :=
  if isDev then
    match encodeURIComponent host with
    | Some h =>
        match encodeURIComponent endpoint with
        | Some e => Some (lit "/api/proxy?host=" ++ h ++ lit "&endpoint=" ++ e)
        | None => None
        end
    | None => None
    end
  else Some (lit "http://" ++ host ++ lit "/" ++ endpoint).

(* ================================================================== *)
(** ** The chat page *)
(* ================================================================== *)

(** [toggleMonth], as a function of the previous list of expanded
    months. *)
Definition toggleMonth (month : jsstring) (prev : list jsstring)
  : list jsstring :=
  if existsb (fun m => streq m month) prev
  then filter (fun m => negb (streq m month)) prev
  else prev ++ [month].

(** [handleSubmit]: the posted body, if a message is sent at all, and the
    store afterwards. *)
Definition handleSubmit (now1 : Date) (rnd1 : N) (now2 : Date) (rnd2 : N)
           (message : jsstring) (response : http ChatResponse.t)
           (sessionsResponse : http SessionsResponse.t) (st : ChatStore)
  : option Payload.t * ChatStore :=
  if negb (truthy (trim message)) then (None, st)
  else
    let r := sendMessage now1 rnd1 now2 rnd2 message response
                         sessionsResponse st in
    (Some (fst r), snd r).

(** The condition of the effect that fetches the current conversation:
    the id to load, if the effect is to load one. *)
Definition shouldLoadConversation (st : ChatStore) : option jsstring :=
  match whenTruthy (currentConversationId st) with
  | Some cid =>
      if negb (existsb (hasId cid) (conversations st))
         && isConnected st
         && existsb (hasSessionId cid) (sessions st)
      then Some cid else None
  | None => None
  end.

Definition fetchConversation (response : http ConversationResponse.t)
           (st : ChatStore) : ChatStore :=
  match shouldLoadConversation st with
  | Some cid => loadConversation response cid st
  | None => st
  end.

(* ================================================================== *)
(** ** The upload page *)
(* ================================================================== *)

Module File.
Record t := mk {
  name : jsstring;
  size : Z
}.
End File.

(** What [uploadToS3] does with a file: it resolves to a key or throws an
    error with a message. *)
Inductive UploadOutcome :=
| UploadResolved (s3Key : jsstring)
| UploadRejected (message : jsstring).

Definition maxUploadSize : Z := 10 * 1024 * 1024.


Definition markUploaded (s3Key : jsstring) : FileUpdates.t :=
  FileUpdates.mk None None None (Some UploadedFile.uploaded)
                 (Some (Some s3Key)) None.

Definition markError (message : jsstring) : FileUpdates.t :=
  FileUpdates.mk None None None (Some UploadedFile.error_) None
                 (Some (Some (if truthy message then message
                              else lit "Failed to upload file"))).

(** One round of the loop of [handleFileUpload]: the files handed to
    [uploadToS3] and the store afterwards.  [rnd] feeds [uuidv4] and
    [outcome] is what [uploadToS3] would do with the file. *)
Definition uploadOne (file : File.t) (rnd : N) (outcome : UploadOutcome)
           (st : ChatStore) : list File.t * ChatStore :=
  let fileId := uuidv4 rnd in
  let st :=
    addFile (UploadedFile.mk fileId (File.name file) (File.size file)
                             UploadedFile.uploading None None) st in
  if maxUploadSize <? File.size file then
    ([], updateFile fileId
           (markError (lit "File too large. Maximum size is 10MB.")) st)
  else
    match outcome with
    | UploadResolved s3Key => ([file], updateFile fileId (markUploaded s3Key) st)
    | UploadRejected message => ([file], updateFile fileId (markError message) st)
    end.

Fixpoint uploadEach (items : list (File.t * N * UploadOutcome))
         (st : ChatStore) : list File.t * ChatStore :=
  match items with
  | [] => ([], st)
  | (file, rnd, outcome) :: rest =>
      let r := uploadOne file rnd outcome st in
      let r' := uploadEach rest (snd r) in
      (fst r ++ fst r', snd r')
  end.

(** [handleFileUpload]; [None] is a null [FileList]. *)
Definition handleFileUpload
           (uploadedFiles : option (list (File.t * N * UploadOutcome)))
           (st : ChatStore) : list File.t * ChatStore :=
  match uploadedFiles with
  | None => ([], st)
  | Some items => uploadEach items st
  end.

(* ================================================================== *)
(** ** Vocabulary of the further properties *)
(* ================================================================== *)

(** The health probe answered, and with status ["healthy"]. *)
Definition probeHealthy (healthCheck : http HealthResponse.t) : Prop :=
  exists data, healthCheck = Ok data
               /\ HealthResponse.status data = lit "healthy".

(** The session list answered without a [sessions] field. *)
Definition lacksSessions (response : http SessionsResponse.t) : Prop :=
  exists data, response = Ok data /\ SessionsResponse.sessions data = None.

(** The transcript answered without a [messages] field. *)
Definition lacksMessages (response : http ConversationResponse.t) : Prop :=
  exists data, response = Ok data /\ ConversationResponse.messages data = None.

(** The transcript answered with both its messages and its metadata. *)
Definition transcript (response : http ConversationResponse.t)
           (msgs : list ApiMessage.t) (metadata : Metadata.t) : Prop :=
  exists data, response = Ok data
               /\ ConversationResponse.messages data = Some msgs
               /\ ConversationResponse.metadata data = Some metadata.

(** How many conversations are keyed by [cid]. *)
Definition keyedCount (cid : jsstring) (st : ChatStore) : nat :=
  List.length (filter (hasId cid) (conversations st)).

(** The conversations not keyed by [cid], in order. *)
Definition othersThan (cid : jsstring) (st : ChatStore) : list Conversation.t :=
  filter (fun c => negb (hasId cid c)) (conversations st).

Definition isGenericTitle (title : jsstring) : bool :=
  streq title (lit "New conversation") || streq title (lit "New Chat").

(** The ids of the files, in list order. *)
Definition fileIds (st : ChatStore) : list jsstring :=
  List.map UploadedFile.id (files st).

(** The entry a file ends as once its round of the upload loop is over. *)
Definition finalEntry (item : File.t * N * UploadOutcome) : UploadedFile.t :=
  let '(file, rnd, outcome) := item in
  if maxUploadSize <? File.size file then
    UploadedFile.mk (uuidv4 rnd) (File.name file) (File.size file)
                    UploadedFile.error_ None
                    (Some (lit "File too large. Maximum size is 10MB."))
  else
    match outcome with
    | UploadResolved s3Key =>
        UploadedFile.mk (uuidv4 rnd) (File.name file) (File.size file)
                        UploadedFile.uploaded (Some s3Key) None
    | UploadRejected message =>
        UploadedFile.mk (uuidv4 rnd) (File.name file) (File.size file)
                        UploadedFile.error_ None
                        (Some (if truthy message then message
                               else lit "Failed to upload file"))
    end.

Definition mintedId (item : File.t * N * UploadOutcome) : jsstring :=
  uuidv4 (snd (fst item)).

Definition fitsLimit (item : File.t * N * UploadOutcome) : bool :=
  negb (maxUploadSize <? File.size (fst (fst item))).

(** The conversation [loadConversation] builds from a transcript. *)
Definition fromTranscript (sessionId : jsstring) (msgs : list ApiMessage.t)
           (metadata : Metadata.t) : Conversation.t :=
  Conversation.mk sessionId
    (if truthy (Metadata.title metadata)
     then Metadata.title metadata else lit "Conversation")
    (List.map
       (fun msg =>
          Message.mk (ApiMessage.role msg) (ApiMessage.content msg)
                     (DateOf (Metadata.created_at metadata)))
       msgs)
    (DateOf (Metadata.created_at metadata))
    (DateOf (Metadata.last_updated metadata)).

Arguments fromTranscript : simpl never.

(** A conversation after [addMessage] has appended to it. *)
Definition withMessage (now : Date) (content : jsstring) (role : Role)
           (conv : Conversation.t) : Conversation.t :=
  Conversation.mk (Conversation.id conv)
    (if isUser role
        && ((List.length (Conversation.messages conv) =? 0)%nat
            || streq (Conversation.title conv) (lit "New conversation")
            || streq (Conversation.title conv) (lit "New Chat"))
     then createTitleFromContent content
     else Conversation.title conv)
    (Conversation.messages conv ++ [Message.mk role content now])
    (Conversation.createdAt conv)
    now.

(** [c'] is [c] with further messages after those it had. *)
Definition extendedBy (n : nat) (c c' : Conversation.t) : Prop :=
  exists suffix,
    Conversation.messages c' = Conversation.messages c ++ suffix
    /\ (List.length suffix <= n)%nat
    /\ Conversation.createdAt c' = Conversation.createdAt c.

(** How many times [c] occurs in [s]. *)
Definition countChar (c : N) (s : jsstring) : nat :=
  List.length (filter (N.eqb c) s).

(** A character [encodeURIComponent] can produce. *)
Definition isEncoded (c : N) : bool := isUriUnreserved c || (c =? 37)%N.

Definition isSurrogate (c : N) : bool := isHighSurrogate c || isLowSurrogate c.

(** Sample files. *)
Definition smallFile : File.t := File.mk (lit "report.pdf") 2048.
Definition largeFile : File.t := File.mk (lit "scan.png") 10485761.

(** A run from the empty store whose chat response names the current
    session. *)
Definition quietRun : list Op :=
  [ LoadSessions
      (Ok (SessionsResponse.mk (Some [summaryOf sessionA; summaryOf sessionB])));
    LoadConversation (Ok (transcriptOf sessionA)) sessionA;
    LoadConversation (Ok (transcriptOf sessionB)) sessionB;
    SendMessage (DateNow 1) 7 (DateNow 2) 8 shortContent
                (Ok (replyWith sessionB)) (refreshed sessionB);
    DeleteConversation (Ok tt) sessionA ].

(** The empty store once connected, with no session listed yet. *)
Definition connectedStore : ChatStore :=
  fst (connect (Ok healthy) (Ok (SessionsResponse.mk (Some []))) emptyStore).

(* ================================================================== *)
(** ** Strings: basic facts *)
(* ================================================================== *)

Lemma streq_true_iff (a b : jsstring) : streq a b = true <-> a = b.
Proof.
  revert b; induction a as [|x a IH]; intros [|y b]; simpl;
    try (split; [discriminate | congruence]); try tauto.
  rewrite andb_true_iff, N.eqb_eq, IH.
  split; [intros [-> ->]; reflexivity | intros H; inversion H; auto].
Qed.

Lemma streq_refl (a : jsstring) : streq a a = true.
Proof. apply streq_true_iff; reflexivity. Qed.

Lemma streq_false_iff (a b : jsstring) : streq a b = false <-> a <> b.
Proof.
  rewrite <- streq_true_iff. destruct (streq a b); split; congruence.
Qed.

Lemma substring_prefix (s : jsstring) (n : Z) :
  0 <= n -> substring s 0 n = firstn (Z.to_nat n) s.
Proof.
  intros Hn. unfold substring.
  rewrite Z.min_l, Z.max_r by lia. simpl. now rewrite Nat.sub_0_r.
Qed.

(** What the scan returns: [best] when [c] is absent, else the offset of
    the last occurrence. *)
Lemma scanLast_spec (c : N) (s : jsstring) :
  forall i best,
    (scanLast c s i best = best /\ forall j, nth_error s j <> Some c)
    \/ (exists j : nat,
          scanLast c s i best = i + Z.of_nat j /\
          nth_error s j = Some c /\
          forall j', (j < j')%nat -> nth_error s j' <> Some c).
Proof.
  induction s as [|x s IH]; intros i best; simpl.
  - left. split; [reflexivity | intros [|j]; discriminate].
  - destruct (IH (i + 1) (if N.eqb x c then i else best))
      as [[Hr Hno] | [j [Hr [Hj Hlast]]]].
    + destruct (N.eqb_spec x c) as [->|Hx].
      * right. exists 0%nat. rewrite Hr. repeat split; [lia|].
        intros [|j'] Hlt; [lia | simpl; apply Hno].
      * left. split; [assumption|].
        intros [|j]; simpl; [congruence | apply Hno].
    + right. exists (S j). rewrite Hr. repeat split; [lia | assumption |].
      intros [|j'] Hlt; [lia | simpl; apply Hlast; lia].
Qed.

(** [lastIndexOf] returns [-1] or the greatest index at or before [from]
    that holds [c]. *)
Lemma lastIndexOf_spec (s : jsstring) (c : N) (from : Z) :
  0 <= from ->
  (lastIndexOf s c from = -1 /\
   forall k, 0 <= k <= from -> charAt s k <> Some c)
  \/ (0 <= lastIndexOf s c from <= from /\
      charAt s (lastIndexOf s c from) = Some c /\
      forall k, lastIndexOf s c from < k <= from -> charAt s k <> Some c).
Proof.
  intros Hfrom. unfold lastIndexOf.
  set (n := Z.to_nat (from + 1)).
  assert (Hnth : forall j, nth_error (firstn n s) j
                           = if (j <? n)%nat then nth_error s j else None)
    by (intros; apply nth_error_firstn).
  destruct (scanLast_spec c (firstn n s) 0 (-1))
    as [[Hr Hno] | [j [Hr [Hj Hlast]]]].
  - left. split; [assumption|]. intros k Hk. unfold charAt.
    destruct (Z.ltb_spec k 0); [lia|].
    specialize (Hno (Z.to_nat k)). rewrite Hnth in Hno.
    destruct (Nat.ltb_spec (Z.to_nat k) n); [assumption | lia].
  - right. rewrite Hr.
    assert (Hjn : (j < n)%nat).
    { rewrite Hnth in Hj. destruct (Nat.ltb_spec j n); [assumption|discriminate]. }
    split; [lia|]. split.
    + unfold charAt. destruct (Z.ltb_spec (0 + Z.of_nat j) 0); [lia|].
      replace (Z.to_nat (0 + Z.of_nat j)) with j by lia.
      rewrite Hnth in Hj. destruct (Nat.ltb_spec j n); [assumption|lia].
    + intros k Hk. unfold charAt. destruct (Z.ltb_spec k 0); [lia|].
      specialize (Hlast (Z.to_nat k)). rewrite Hnth in Hlast.
      destruct (Nat.ltb_spec (Z.to_nat k) n); [apply Hlast; lia | lia].
Qed.

Lemma lastIndexOf_absent (content : jsstring) (c : N) :
  ~ occursInWindow c content -> (10 <? lastIndexOf content c 30) = false.
Proof.
  intros Hno. apply Z.ltb_ge.
  destruct (lastIndexOf_spec content c 30) as [[Hr _] | [Hr [Hc _]]];
    [lia | lia |].
  destruct (Z.le_gt_cases (lastIndexOf content c 30) 10); [assumption|].
  exfalso. apply Hno. exists (lastIndexOf content c 30). split; [lia|assumption].
Qed.

Lemma lastIndexOf_last (content : jsstring) (c : N) (p : Z) :
  lastInWindow c content p -> lastIndexOf content c 30 = p.
Proof.
  intros [Hp [Hc Hlast]].
  destruct (lastIndexOf_spec content c 30) as [[_ Hno] | [Hr [Hc' Hlast']]];
    [lia | exfalso; apply (Hno p); [lia | assumption] |].
  destruct (Z.lt_trichotomy (lastIndexOf content c 30) p) as [Hlt | [Heq | Hgt]].
  - exfalso. apply (Hlast' p); [lia | assumption].
  - assumption.
  - exfalso. apply (Hlast (lastIndexOf content c 30)); [lia | assumption].
Qed.

Lemma findBreakPoint_skip (content : jsstring) (pre rest : list N) (best : Z) :
  (forall c, In c pre -> ~ occursInWindow c content) ->
  findBreakPoint content (pre ++ rest) best = findBreakPoint content rest best.
Proof.
  induction pre as [|c pre IH]; intros Hpre; [reflexivity|].
  simpl. rewrite lastIndexOf_absent by (apply Hpre; left; reflexivity).
  apply IH. intros c' Hin. apply Hpre. right. assumption.
Qed.

Lemma findBreakPoint_hit (content : jsstring) (ch : N) (post : list N)
      (best p : Z) :
  lastInWindow ch content p ->
  findBreakPoint content (ch :: post) best = p + 1.
Proof.
  intros Hlast. simpl. rewrite (lastIndexOf_last _ _ _ Hlast).
  destruct Hlast as [Hp _].
  destruct (Z.ltb_spec 10 p); [reflexivity | lia].
Qed.

Lemma noneInRange_sound (c : N) (s : jsstring) (lo : Z) (n : nat) :
  noneInRange c s lo n = true ->
  forall k, lo < k <= lo + Z.of_nat n -> charAt s k <> Some c.
Proof.
  induction n as [|n IH]; intros Hb k Hk; [lia|].
  cbn [noneInRange] in Hb.
  destruct (Z.eq_dec k (lo + Z.of_nat (S n))) as [->|Hne].
  - destruct (charAt s (lo + Z.of_nat (S n))) as [x|]; [|discriminate].
    apply andb_true_iff in Hb. destruct Hb as [Hx _].
    intros Heq. inversion Heq; subst. rewrite N.eqb_refl in Hx. discriminate.
  - apply IH; [|lia].
    destruct (charAt s (lo + Z.of_nat (S n)));
      [apply andb_true_iff in Hb; tauto | assumption].
Qed.

(* ================================================================== *)
(** ** Title derivation: properties *)
(* ================================================================== *)

(** C4, as amended.  A content of at most 30 characters is its own title.
    A longer content is cut after the last occurrence, among the indices
    11..30, of the first character in the order space, comma, period,
    question mark, exclamation mark that occurs there at all; when none of
    them occurs there it is cut at 30.  In both cases the cut prefix is
    trimmed of white space at both ends and ["..."] is appended. *)
Theorem createTitleFromContent_by_priority (content : jsstring) :
  (JS.length content <= 30 -> createTitleFromContent content = content)
  /\ (30 < JS.length content ->
      forall pre ch post p,
        breakPoints = pre ++ ch :: post ->
        (forall c, In c pre -> ~ occursInWindow c content) ->
        lastInWindow ch content p ->
        createTitleFromContent content
        = trim (firstn (Z.to_nat (p + 1)) content) ++ lit "...")
  /\ (30 < JS.length content ->
      (forall c, In c breakPoints -> ~ occursInWindow c content) ->
      createTitleFromContent content
      = trim (firstn 30 content) ++ lit "...").
Proof.
  unfold createTitleFromContent. repeat split.
  - intros Hlen. destruct (Z.leb_spec (JS.length content) 30); [reflexivity|lia].
  - intros Hlen pre ch post p Hsplit Hpre Hlast.
    destruct (Z.leb_spec (JS.length content) 30); [lia|].
    rewrite Hsplit, (findBreakPoint_skip _ _ _ _ Hpre),
      (findBreakPoint_hit _ _ _ _ _ Hlast).
    destruct Hlast as [Hp _]. rewrite substring_prefix by lia. reflexivity.
  - intros Hlen Hnone.
    destruct (Z.leb_spec (JS.length content) 30); [lia|].
    rewrite <- (app_nil_r breakPoints), (findBreakPoint_skip _ _ _ _ Hnone).
    simpl findBreakPoint. rewrite substring_prefix by lia. reflexivity.
Qed.

Lemma createTitleFromContent_by_priority_witness :
  createTitleFromContent shortContent = shortContent
  /\ createTitleFromContent commaContent = lit "aaaaaaaaaaaaaaa,..."
  /\ createTitleFromContent plainContent
     = lit "aaaaaaaaaaaaaaaaaaaaaaaaaaaaaa...".
Proof.
  split; [|split].
  - apply (proj1 (createTitleFromContent_by_priority shortContent)).
    vm_compute. discriminate.
  - apply (proj1 (proj2 (createTitleFromContent_by_priority commaContent))
             eq_refl [32%N] 44%N [46%N; 63%N; 33%N] 15 eq_refl).
    + intros c [<-|[]] [k [Hk Hc]].
      exact (noneInRange_sound 32%N commaContent 10 20 eq_refl k Hk Hc).
    + split; [lia|]. split; [reflexivity|].
      exact (noneInRange_sound 44%N commaContent 15 15 eq_refl).
  - apply (proj2 (proj2 (createTitleFromContent_by_priority plainContent))
             eq_refl).
    intros c Hin [k [Hk Hc]]. revert Hc.
    destruct Hin as [<-|[<-|[<-|[<-|[<-|[]]]]]];
      (apply (noneInRange_sound _ plainContent 10 20); [reflexivity | exact Hk]).
Defined.

(** C4, as stated, fails.  In [mixedContent] the last boundary character
    among the indices 11..30 is the comma at index 23, yet the title is cut
    at the space at index 12: it is the prefix up to the comma followed by
    the ellipsis under neither reading of "up to". *)
Lemma createTitleFromContent_not_last_boundary :
  lastBoundary mixedContent = Some 23
  /\ createTitleFromContent mixedContent = lit "aaaaaaaaaaaa..."
  /\ createTitleFromContent mixedContent <> specTitle true mixedContent
  /\ createTitleFromContent mixedContent <> specTitle false mixedContent.
Proof.
  repeat split; try reflexivity; vm_compute; discriminate.
Qed.

(** The cut prefix is trimmed: with two leading spaces and no boundary
    character among the indices 11..30, the title is not the first 30
    characters followed by the ellipsis. *)
Example createTitleFromContent_trims :
  lastBoundary paddedContent = None
  /\ createTitleFromContent paddedContent
     = lit "aaaaaaaaaaaaaaaaaaaaaaaaaaaa..."
  /\ createTitleFromContent paddedContent
     <> firstn 30 paddedContent ++ lit "...".
Proof.
  repeat split; try reflexivity. vm_compute. discriminate.
Qed.

(* ================================================================== *)
(** ** The store: basic facts *)
(* ================================================================== *)

Lemma hasId_true_iff (cid : jsstring) (c : Conversation.t) :
  hasId cid c = true <-> Conversation.id c = cid.
Proof. apply streq_true_iff. Qed.

Lemma hasId_false_iff (cid : jsstring) (c : Conversation.t) :
  hasId cid c = false <-> Conversation.id c <> cid.
Proof. apply streq_false_iff. Qed.

Lemma hasSessionId_true_iff (sid : jsstring) (s : Session.t) :
  hasSessionId sid s = true <-> Session.session_id s = sid.
Proof. apply streq_true_iff. Qed.

Lemma whenTruthy_Some (v : option jsstring) (s : jsstring) :
  whenTruthy v = Some s <-> v = Some s /\ truthy s = true.
Proof.
  destruct v as [x|]; simpl.
  - destruct (truthy x) eqn:Hx; split.
    + intros H; inversion H; subst; auto.
    + intros [H _]; exact H.
    + discriminate.
    + intros [H Ht]; inversion H; subst; congruence.
  - split; [discriminate | intros [H _]; discriminate].
Qed.

Lemma whenTruthy_None_of_None : whenTruthy None = None.
Proof. reflexivity. Qed.

Lemma sameId_true_iff (v : option jsstring) (s : jsstring) :
  sameId v s = true <-> v = Some s.
Proof.
  destruct v as [c|]; simpl; [|split; discriminate].
  rewrite streq_true_iff. split; congruence.
Qed.

Lemma set_isLoading_twice (a b : bool) (st : ChatStore) :
  set_isLoading a (set_isLoading b st) = set_isLoading a st.
Proof. reflexivity. Qed.

(** [addMessage] neither reads nor writes the loading flag. *)
Lemma addMessage_set_isLoading now rnd content role (b : bool) (st : ChatStore) :
  addMessage now rnd content role (set_isLoading b st)
  = set_isLoading b (addMessage now rnd content role st).
Proof.
  unfold addMessage. simpl.
  destruct (whenTruthy (currentConversationId st)) as [cid|]; [|reflexivity].
  destruct (find (hasId cid) (conversations st)); reflexivity.
Qed.

Lemma addMessage_sessions now rnd content role (st : ChatStore) :
  sessions (addMessage now rnd content role st) = sessions st.
Proof.
  unfold addMessage.
  destruct (whenTruthy (currentConversationId st)) as [cid|]; [|reflexivity].
  destruct (find (hasId cid) (conversations st)); reflexivity.
Qed.

(** A map that keeps the ids maps the first conversation with a given id
    to the first conversation with that id. *)
Lemma find_hasId_map (cid : jsstring) (f : Conversation.t -> Conversation.t)
      (l : list Conversation.t) (c : Conversation.t) :
  (forall x, Conversation.id (f x) = Conversation.id x) ->
  find (hasId cid) l = Some c ->
  find (hasId cid) (List.map f l) = Some (f c).
Proof.
  intros Hid.
  assert (Hf : forall x, hasId cid (f x) = hasId cid x)
    by (intros x; unfold hasId; now rewrite Hid).
  induction l as [|x l IH]; simpl; [discriminate|].
  rewrite Hf. destruct (hasId cid x).
  - intros H; inversion H; subst. reflexivity.
  - assumption.
Qed.

(** After an append the current conversation exists and ends with the
    appended message. *)
Lemma addMessage_current_last now rnd content role (st : ChatStore) :
  exists cid c before,
    currentConversationId (addMessage now rnd content role st) = Some cid
    /\ truthy cid = true
    /\ find (hasId cid) (conversations (addMessage now rnd content role st))
       = Some c
    /\ Conversation.messages c = before ++ [Message.mk role content now].
Proof.
  unfold addMessage.
  destruct (whenTruthy (currentConversationId st)) as [cid|] eqn:Hcur.
  - apply whenTruthy_Some in Hcur. destruct Hcur as [Hcur Htruthy].
    destruct (find (hasId cid) (conversations st)) as [c|] eqn:Hfind.
    + eexists cid, _, (Conversation.messages c). cbn.
      split; [assumption|]. split; [assumption|]. split.
      * apply find_hasId_map; [|exact Hfind].
        intros x. destruct (hasId cid x); reflexivity.
      * apply find_some in Hfind. destruct Hfind as [_ Hc].
        rewrite Hc. reflexivity.
    + eexists cid, _, []. cbn. unfold hasId at 1. cbn.
      rewrite streq_refl. repeat split; assumption.
  - eexists (uuidv4 rnd), _, []. cbn. unfold hasId. cbn.
    rewrite streq_refl. repeat split.
Qed.

(* ================================================================== *)
(** ** connect *)
(* ================================================================== *)

(** C5.  When the health probe answers with status ["healthy"], [connect]
    leaves no conversation and no current conversation, whatever the store
    held before and whatever the session refresh returns; the store is
    connected and the operation reports success. *)
Theorem connect_clears_conversations
        (data : HealthResponse.t) (sessionsResponse : http SessionsResponse.t)
        (st : ChatStore) :
  HealthResponse.status data = lit "healthy" ->
  conversations (fst (connect (Ok data) sessionsResponse st)) = []
  /\ currentConversationId (fst (connect (Ok data) sessionsResponse st)) = None
  /\ isConnected (fst (connect (Ok data) sessionsResponse st)) = true
  /\ snd (connect (Ok data) sessionsResponse st) = true.
Proof.
  intros Hst. unfold connect. rewrite Hst, streq_refl.
  destruct sessionsResponse as [|[[l|]]]; repeat split.
Qed.

Lemma connect_clears_conversations_witness :
  conversations (fst (connect (Ok healthy) Failed twoLoaded)) = []
  /\ currentConversationId (fst (connect (Ok healthy) Failed twoLoaded)) = None
  /\ isConnected (fst (connect (Ok healthy) Failed twoLoaded)) = true
  /\ snd (connect (Ok healthy) Failed twoLoaded) = true.
Proof.
  apply (connect_clears_conversations healthy Failed twoLoaded). reflexivity.
Defined.

(* ================================================================== *)
(** ** deleteConversation / deleteSession *)
(* ================================================================== *)

(** C6.  [deleteConversation] is [deleteSession].  When the remote delete
    succeeds the conversations and the session summaries with that id are
    gone and every other one stays; the current id becomes null when it was
    the deleted id and is unchanged otherwise.  When the remote delete
    fails the store is the one before the call with the loading flag
    cleared. *)
Theorem deleteConversation_outcome (sessionId : jsstring) (st : ChatStore) :
  (forall response,
      deleteConversation response sessionId st
      = deleteSession response sessionId st)
  /\ (forall c, In c (conversations (deleteConversation (Ok tt) sessionId st))
                <-> In c (conversations st) /\ Conversation.id c <> sessionId)
  /\ (forall s, In s (sessions (deleteConversation (Ok tt) sessionId st))
                <-> In s (sessions st) /\ Session.session_id s <> sessionId)
  /\ (currentConversationId st = Some sessionId ->
      currentConversationId (deleteConversation (Ok tt) sessionId st) = None)
  /\ (currentConversationId st <> Some sessionId ->
      currentConversationId (deleteConversation (Ok tt) sessionId st)
      = currentConversationId st)
  /\ isLoading (deleteConversation (Ok tt) sessionId st) = false
  /\ deleteConversation Failed sessionId st = set_isLoading false st
  /\ conversations (deleteConversation Failed sessionId st) = conversations st
  /\ sessions (deleteConversation Failed sessionId st) = sessions st
  /\ currentConversationId (deleteConversation Failed sessionId st)
     = currentConversationId st
  /\ isLoading (deleteConversation Failed sessionId st) = false.
Proof.
  unfold deleteConversation, deleteSession. cbn.
  split; [reflexivity|].
  split.
  { intros c. rewrite filter_In, negb_true_iff, hasId_false_iff. tauto. }
  split.
  { intros s. rewrite filter_In, negb_true_iff.
    unfold hasSessionId. rewrite streq_false_iff. tauto. }
  split.
  { intros Hcur. rewrite (proj2 (sameId_true_iff _ _) Hcur). reflexivity. }
  split.
  { intros Hcur.
    destruct (sameId (currentConversationId st) sessionId) eqn:Hs;
      [apply sameId_true_iff in Hs; contradiction | reflexivity]. }
  repeat split.
Qed.

Lemma deleteConversation_outcome_witness :
  conversationIds (deleteConversation (Ok tt) sessionB twoLoaded) = [sessionA]
  /\ currentConversationId (deleteConversation (Ok tt) sessionB twoLoaded)
     = None
  /\ currentConversationId (deleteConversation (Ok tt) sessionA twoLoaded)
     = currentConversationId twoLoaded
  /\ deleteConversation Failed sessionB twoLoaded
     = set_isLoading false twoLoaded.
Proof.
  split; [reflexivity|]. split; [|split].
  - apply (proj1 (proj2 (proj2 (proj2
             (deleteConversation_outcome sessionB twoLoaded))))).
    reflexivity.
  - apply (proj1 (proj2 (proj2 (proj2 (proj2
             (deleteConversation_outcome sessionA twoLoaded)))))).
    vm_compute. discriminate.
  - apply (proj1 (proj2 (proj2 (proj2 (proj2 (proj2 (proj2
             (deleteConversation_outcome sessionB twoLoaded)))))))).
Defined.

(* ================================================================== *)
(** ** The message-append algorithm *)
(* ================================================================== *)

(** C7.  With no current conversation, appending a user message puts one
    new conversation in front of the list; it holds that message alone, is
    titled from the content, carries the freshly minted id and is the
    current conversation.  Every earlier conversation is kept. *)
Theorem addMessage_without_current
        (now : Date) (rnd : N) (content : jsstring) (st : ChatStore) :
  currentConversationId st = None ->
  exists c,
    conversations (addMessage now rnd content user st)
    = c :: conversations st
    /\ Conversation.messages c = [Message.mk user content now]
    /\ Conversation.title c = createTitleFromContent content
    /\ Conversation.id c = uuidv4 rnd
    /\ currentConversationId (addMessage now rnd content user st)
       = Some (Conversation.id c)
    /\ List.length (conversations (addMessage now rnd content user st))
       = S (List.length (conversations st)).
Proof.
  intros Hcur. unfold addMessage. rewrite Hcur. cbn.
  eexists. repeat split.
Qed.

Lemma addMessage_without_current_witness :
  exists c,
    conversations (addMessage (DateNow 1) 7 shortContent user emptyStore)
    = c :: conversations emptyStore
    /\ Conversation.messages c = [Message.mk user shortContent (DateNow 1)]
    /\ Conversation.title c = createTitleFromContent shortContent
    /\ Conversation.id c = uuidv4 7
    /\ currentConversationId
         (addMessage (DateNow 1) 7 shortContent user emptyStore)
       = Some (Conversation.id c)
    /\ List.length
         (conversations (addMessage (DateNow 1) 7 shortContent user emptyStore))
       = S (List.length (conversations emptyStore)).
Proof.
  apply (addMessage_without_current (DateNow 1) 7 shortContent emptyStore).
  reflexivity.
Defined.

(* ================================================================== *)
(** ** sendMessage: the failure path *)
(* ================================================================== *)

(** C8.  When the chat request throws, the store is the one the optimistic
    append produced with the loading flag cleared: the user message is the
    last message of the current conversation, and conversations, session
    list and current id are those the append left. *)
Theorem sendMessage_failure_keeps_optimistic_message
        (now1 : Date) (rnd1 : N) (now2 : Date) (rnd2 : N)
        (content : jsstring) (sessionsResponse : http SessionsResponse.t)
        (st : ChatStore) :
  snd (sendMessage now1 rnd1 now2 rnd2 content Failed sessionsResponse st)
  = set_isLoading false (addMessage now1 rnd1 content user st)
  /\ isLoading
       (snd (sendMessage now1 rnd1 now2 rnd2 content Failed sessionsResponse st))
     = false
  /\ sessions
       (snd (sendMessage now1 rnd1 now2 rnd2 content Failed sessionsResponse st))
     = sessions st
  /\ exists cid c before,
      currentConversationId
        (snd (sendMessage now1 rnd1 now2 rnd2 content Failed
                          sessionsResponse st))
      = Some cid
      /\ find (hasId cid)
              (conversations
                 (snd (sendMessage now1 rnd1 now2 rnd2 content Failed
                                   sessionsResponse st)))
         = Some c
      /\ Conversation.messages c = before ++ [Message.mk user content now1].
Proof.
  assert (Hst : snd (sendMessage now1 rnd1 now2 rnd2 content Failed
                                 sessionsResponse st)
                = set_isLoading false (addMessage now1 rnd1 content user st)).
  { unfold sendMessage. cbn [snd].
    rewrite addMessage_set_isLoading. apply set_isLoading_twice. }
  rewrite Hst. split; [reflexivity|]. split; [reflexivity|].
  split; [cbn; apply addMessage_sessions|].
  destruct (addMessage_current_last now1 rnd1 content user st)
    as [cid [c [before [Hcur [_ [Hfind Hmsgs]]]]]].
  exists cid, c, before. cbn. auto.
Qed.

(* ================================================================== *)
(** ** The UUID pattern *)
(* ================================================================== *)

Lemma matchRep_Some_iff (cls : N -> bool) (n : nat) :
  forall s r,
    matchRep cls n s = Some r
    <-> exists g, s = g ++ r /\ List.length g = n
                  /\ Forall (fun c => cls c = true) g.
Proof.
  induction n as [|n IH]; intros s r; simpl.
  - split.
    + intros H; inversion H; subst. exists []. auto.
    + intros [g [-> [Hlen _]]]. destruct g; [reflexivity | discriminate].
  - destruct s as [|c s].
    + split; [discriminate|]. intros [[|x g] [Hs [Hlen _]]]; discriminate.
    + destruct (cls c) eqn:Hc.
      * rewrite IH. split.
        -- intros [g [-> [Hlen Hall]]]. exists (c :: g). simpl. auto.
        -- intros [[|x g] [Hs [Hlen Hall]]]; [discriminate|].
           inversion Hs; subst. inversion Hall; subst.
           exists g. auto.
      * split; [discriminate|].
        intros [[|x g] [Hs [Hlen Hall]]]; [discriminate|].
        inversion Hs; subst. inversion Hall; subst. congruence.
Qed.

Lemma matchRep_dash (s r : jsstring) :
  matchRep isDash 1 s = Some r <-> s = lit "-" ++ r.
Proof.
  change (lit "-" ++ r) with (45%N :: r). simpl.
  destruct s as [|c s]; [split; discriminate|].
  unfold isDash. destruct (N.eqb_spec c 45) as [->|Hc].
  - split; intros H; inversion H; reflexivity.
  - split; [discriminate | intros H; inversion H; contradiction].
Qed.

(** The regular expression of [sendMessage] accepts the canonical textual
    form and nothing else. *)
Lemma uuidPatternTest_iff (s : jsstring) :
  uuidPatternTest s = true <-> canonicalUuid s.
Proof.
  unfold uuidPatternTest, uuidPattern, canonicalUuid, hexGroup.
  cbn [matchSeq]. split.
  - destruct (matchRep isHexDigit 8 s) as [r1|] eqn:E1; [|discriminate].
    destruct (matchRep isDash 1 r1) as [r2|] eqn:D1; [|discriminate].
    destruct (matchRep isHexDigit 4 r2) as [r3|] eqn:E2; [|discriminate].
    destruct (matchRep isDash 1 r3) as [r4|] eqn:D2; [|discriminate].
    destruct (matchRep isHexDigit 4 r4) as [r5|] eqn:E3; [|discriminate].
    destruct (matchRep isDash 1 r5) as [r6|] eqn:D3; [|discriminate].
    destruct (matchRep isHexDigit 4 r6) as [r7|] eqn:E4; [|discriminate].
    destruct (matchRep isDash 1 r7) as [r8|] eqn:D4; [|discriminate].
    destruct (matchRep isHexDigit 12 r8) as [r9|] eqn:E5; [|discriminate].
    destruct r9; [intros _ | discriminate].
    apply matchRep_Some_iff in E1, E2, E3, E4, E5.
    apply matchRep_dash in D1, D2, D3, D4.
    destruct E1 as [g1 [-> H1]], E2 as [g2 [-> H2]], E3 as [g3 [-> H3]],
             E4 as [g4 [-> H4]], E5 as [g5 [-> H5]].
    subst. rewrite app_nil_r. exists g1, g2, g3, g4, g5.
    split; [reflexivity | tauto].
  - intros [g1 [g2 [g3 [g4 [g5 [-> [[L1 F1] [[L2 F2] [[L3 F3] [[L4 F4] [L5 F5]]]]]]]]]]].
    rewrite (proj2 (matchRep_Some_iff isHexDigit 8 _ _)
                   (ex_intro _ g1 (conj eq_refl (conj L1 F1)))).
    rewrite (proj2 (matchRep_dash _ _) eq_refl).
    rewrite (proj2 (matchRep_Some_iff isHexDigit 4 _ _)
                   (ex_intro _ g2 (conj eq_refl (conj L2 F2)))).
    rewrite (proj2 (matchRep_dash _ _) eq_refl).
    rewrite (proj2 (matchRep_Some_iff isHexDigit 4 _ _)
                   (ex_intro _ g3 (conj eq_refl (conj L3 F3)))).
    rewrite (proj2 (matchRep_dash _ _) eq_refl).
    rewrite (proj2 (matchRep_Some_iff isHexDigit 4 _ _)
                   (ex_intro _ g4 (conj eq_refl (conj L4 F4)))).
    rewrite (proj2 (matchRep_dash _ _) eq_refl).
    rewrite <- (app_nil_r g5).
    rewrite (proj2 (matchRep_Some_iff isHexDigit 12 _ _)
                   (ex_intro _ g5 (conj eq_refl (conj L5 F5)))).
    reflexivity.
Qed.

Lemma canonicalUuid_truthy (s : jsstring) : canonicalUuid s -> truthy s = true.
Proof.
  intros H. apply uuidPatternTest_iff in H.
  destruct s; [discriminate | reflexivity].
Qed.

(* ================================================================== *)
(** ** Temporary identifiers are version-4 UUID strings *)
(* ================================================================== *)

(** A boolean property checked on [0 .. bound-1] holds below [bound]. *)
Lemma check_below (P : N -> bool) (bound : nat) :
  forallb P (List.map N.of_nat (seq 0 bound)) = true ->
  forall m, (m < N.of_nat bound)%N -> P m = true.
Proof.
  intros H m Hm. rewrite forallb_forall in H. apply H.
  apply in_map_iff. exists (N.to_nat m). split; [lia|].
  apply in_seq. lia.
Qed.

Lemma land_ones_below (n : N) (k : N) : (N.land n (N.ones k) < 2 ^ k)%N.
Proof.
  rewrite N.land_ones. apply N.mod_upper_bound. apply N.pow_nonzero. discriminate.
Qed.

Lemma hexDigit_isHexDigit (n : N) :
  isHexDigit (hexDigit (N.land n 15)) = true.
Proof.
  apply (check_below (fun m => isHexDigit (hexDigit m)) 16 eq_refl).
  apply (land_ones_below n 4).
Qed.

Lemma hexBytes_hexGroup (rnd : N) (idx : list N) :
  hexGroup (2 * List.length idx) (hexBytes rnd idx).
Proof.
  unfold hexGroup, hexBytes. induction idx as [|i idx [IHl IHf]]; simpl.
  - split; [reflexivity | constructor].
  - split; [rewrite IHl; lia|].
    repeat constructor; try apply hexDigit_isHexDigit. exact IHf.
Qed.

Lemma uuidv4_canonical (rnd : N) : canonicalUuid (uuidv4 rnd).
Proof.
  unfold uuidv4.
  exists (hexBytes rnd [0; 1; 2; 3]%N), (hexBytes rnd [4; 5]%N),
         (hexBytes rnd [6; 7]%N), (hexBytes rnd [8; 9]%N),
         (hexBytes rnd [10; 11; 12; 13; 14; 15]%N).
  split; [reflexivity|]. repeat split; apply hexBytes_hexGroup.
Qed.

(** The version digit is 4 and the variant digit one of 8, 9, a, b. *)
Lemma uuidv4_version (rnd : N) :
  charAt (uuidv4 rnd) 14 = Some 52%N
  /\ exists c, charAt (uuidv4 rnd) 19 = Some c /\ isVariantDigit c = true.
Proof.
  split.
  - change (charAt (uuidv4 rnd) 14)
      with (Some (hexDigit (N.land (N.shiftr
                    (N.lor (N.land (rndByte rnd 6) 15) 64) 4) 15))).
    f_equal. apply N.eqb_eq.
    apply (check_below
             (fun m => N.eqb (hexDigit (N.land (N.shiftr (N.lor m 64) 4) 15)) 52)
             16 eq_refl).
    apply (land_ones_below _ 4).
  - eexists. split; [reflexivity|].
    apply (check_below
             (fun m => isVariantDigit
                         (hexDigit (N.land (N.shiftr (N.lor m 128) 4) 15)))
             64 eq_refl).
    apply (land_ones_below _ 6).
Qed.

Lemma uuidv4_truthy (rnd : N) : truthy (uuidv4 rnd) = true.
Proof. apply canonicalUuid_truthy, uuidv4_canonical. Qed.

(* ================================================================== *)
(** ** sendMessage: the request body *)
(* ================================================================== *)

Lemma sendMessage_payload now1 rnd1 now2 rnd2 content response
      sessionsResponse (st : ChatStore) :
  fst (sendMessage now1 rnd1 now2 rnd2 content response sessionsResponse st)
  = chatPayload content st.
Proof. unfold sendMessage. destruct response; reflexivity. Qed.

Lemma existsb_hasSessionId (sid : jsstring) (st : ChatStore) :
  existsb (hasSessionId sid) (sessions st) = true <-> listed sid st.
Proof.
  unfold listed. rewrite existsb_exists.
  split; intros [s [Hin Hs]]; exists s; split; auto;
    apply hasSessionId_true_iff; assumption.
Qed.

Lemma chatPayload_session_id_iff (content : jsstring) (st : ChatStore)
      (sid : jsstring) :
  Payload.session_id (chatPayload content st) = Some sid
  <-> currentConversationId st = Some sid /\ listed sid st /\ canonicalUuid sid.
Proof.
  unfold chatPayload. cbn [Payload.session_id].
  destruct (whenTruthy (currentConversationId st)) as [cid|] eqn:Hw.
  - apply whenTruthy_Some in Hw. destruct Hw as [Hcur _]. rewrite Hcur.
    destruct (existsb (hasSessionId cid) (sessions st)) eqn:He;
      destruct (uuidPatternTest cid) eqn:Hu; cbn [andb].
    + apply existsb_hasSessionId in He. apply uuidPatternTest_iff in Hu.
      split.
      * intros H; inversion H; subst. auto.
      * intros [H _]. exact H.
    + split; [discriminate|]. intros [H [_ Hcan]]. inversion H; subst.
      apply uuidPatternTest_iff in Hcan. congruence.
    + split; [discriminate|]. intros [H [Hl _]]. inversion H; subst.
      apply existsb_hasSessionId in Hl. congruence.
    + split; [discriminate|]. intros [H [Hl _]]. inversion H; subst.
      apply existsb_hasSessionId in Hl. congruence.
  - split; [discriminate|]. intros [Hcur [_ Hcan]].
    rewrite Hcur in Hw. simpl in Hw.
    rewrite (canonicalUuid_truthy _ Hcan) in Hw. discriminate.
Qed.

(** C3.  The body [sendMessage] posts carries the question and the user
    id, and it carries a session id exactly when the current id is
    non-null, is the session id of an entry of the session list and has the
    canonical UUID form; the id it carries is then the current id.  In
    every other case the field is absent. *)
Theorem sendMessage_payload_session_id
        (now1 : Date) (rnd1 : N) (now2 : Date) (rnd2 : N)
        (content : jsstring) (response : http ChatResponse.t)
        (sessionsResponse : http SessionsResponse.t) (st : ChatStore) :
  Payload.question
    (fst (sendMessage now1 rnd1 now2 rnd2 content response sessionsResponse st))
  = content
  /\ Payload.user_id
       (fst (sendMessage now1 rnd1 now2 rnd2 content response
                         sessionsResponse st))
     = userId st
  /\ (forall sid,
         Payload.session_id
           (fst (sendMessage now1 rnd1 now2 rnd2 content response
                             sessionsResponse st))
         = Some sid
         <-> currentConversationId st = Some sid
             /\ listed sid st /\ canonicalUuid sid)
  /\ (Payload.session_id
        (fst (sendMessage now1 rnd1 now2 rnd2 content response
                          sessionsResponse st))
      = None
      <-> currentConversationId st = None
          \/ exists cid, currentConversationId st = Some cid
                         /\ ~ (listed cid st /\ canonicalUuid cid)).
Proof.
  rewrite sendMessage_payload.
  split; [reflexivity|]. split; [reflexivity|].
  split; [apply chatPayload_session_id_iff|].
  destruct (Payload.session_id (chatPayload content st)) as [sid|] eqn:Hp.
  - apply chatPayload_session_id_iff in Hp. destruct Hp as [Hcur [Hl Hc]].
    split; [discriminate|].
    intros [Hnone | [cid [Hcid Hnot]]]; [congruence|].
    rewrite Hcur in Hcid. inversion Hcid; subst. tauto.
  - split; [|reflexivity]. intros _.
    destruct (currentConversationId st) as [cid|] eqn:Hcur; [|left; reflexivity].
    right. exists cid. split; [reflexivity|]. intros [Hl Hc].
    assert (H : Payload.session_id (chatPayload content st) = Some cid)
      by (apply chatPayload_session_id_iff; auto).
    congruence.
Qed.

(** The two-conversation scenario: with the non-UUID id current, and even
    listed among the sessions, no session id is sent; with the listed UUID
    current it is sent. *)
Example payload_scenario :
  Payload.session_id (chatPayload shortContent onTempXyz) = None
  /\ listed tempXyz onTempXyz
  /\ Payload.session_id (chatPayload shortContent emptyStore) = None
  /\ Payload.session_id (chatPayload shortContent onSessionA) = Some sessionA.
Proof.
  repeat split. exists (summaryOf tempXyz). split; [right; left|]; reflexivity.
Qed.

(** C10.  The id the append algorithm mints is a version-4 UUID string in
    the canonical form, so it passes the pattern test of [sendMessage];
    with such an id current, the request carries it exactly when it is
    listed among the sessions. *)
Theorem temporary_id_is_uuid (rnd : N) :
  canonicalUuid (uuidv4 rnd)
  /\ uuidPatternTest (uuidv4 rnd) = true
  /\ charAt (uuidv4 rnd) 14 = Some 52%N
  /\ (forall now content role st,
         whenTruthy (currentConversationId st) = None ->
         currentConversationId (addMessage now rnd content role st)
         = Some (uuidv4 rnd)
         /\ exists c,
             conversations (addMessage now rnd content role st)
             = c :: conversations st
             /\ Conversation.id c = uuidv4 rnd)
  /\ (forall content st,
         currentConversationId st = Some (uuidv4 rnd) ->
         (Payload.session_id (chatPayload content st) = Some (uuidv4 rnd)
          <-> listed (uuidv4 rnd) st)
         /\ (Payload.session_id (chatPayload content st) = None
             <-> ~ listed (uuidv4 rnd) st)).
Proof.
  split; [apply uuidv4_canonical|].
  split; [apply uuidPatternTest_iff, uuidv4_canonical|].
  split; [apply uuidv4_version|].
  split.
  - intros now content role st Hw. unfold addMessage. rewrite Hw. cbn.
    split; [reflexivity|]. eexists. split; reflexivity.
  - intros content st Hcur.
    assert (Hiff : Payload.session_id (chatPayload content st)
                   = Some (uuidv4 rnd) <-> listed (uuidv4 rnd) st).
    { rewrite chatPayload_session_id_iff.
      pose proof (uuidv4_canonical rnd). tauto. }
    split; [exact Hiff|].
    destruct (Payload.session_id (chatPayload content st)) as [sid|] eqn:Hp.
    + apply chatPayload_session_id_iff in Hp. destruct Hp as [Hc [Hl _]].
      rewrite Hcur in Hc. inversion Hc; subst.
      split; [discriminate | intros Hn; contradiction].
    + split; [|reflexivity]. intros _ Hl. apply Hiff in Hl. discriminate.
Qed.

Lemma temporary_id_is_uuid_witness :
  currentConversationId (addMessage (DateNow 1) 7 shortContent user emptyStore)
  = Some (uuidv4 7)
  /\ Payload.session_id
       (chatPayload shortContent
          (addMessage (DateNow 1) 7 shortContent user emptyStore))
     = None.
Proof.
  split.
  - apply (proj1 (proj2 (proj2 (proj2 (temporary_id_is_uuid 7))))
             (DateNow 1) shortContent user emptyStore).
    reflexivity.
  - apply (proj2 (proj2 (proj2 (proj2 (temporary_id_is_uuid 7))))
             shortContent
             (addMessage (DateNow 1) 7 shortContent user emptyStore)
             eq_refl).
    intros [s [[] _]].
Defined.

(* ================================================================== *)
(** ** sendMessage: reconciling the session id *)
(* ================================================================== *)

Lemma loadSessions_conversations (response : http SessionsResponse.t)
      (st : ChatStore) :
  conversations (loadSessions response st) = conversations st
  /\ currentConversationId (loadSessions response st)
     = currentConversationId st.
Proof. destruct response as [|[[l|]]]; split; reflexivity. Qed.

(** Appending while a truthy id [cid] is current keeps that id current and
    extends every conversation keyed by it. *)
Lemma addMessage_on_current now rnd content role (st : ChatStore)
      (cid : jsstring) :
  currentConversationId st = Some cid ->
  truthy cid = true ->
  currentConversationId (addMessage now rnd content role st) = Some cid
  /\ forall c0,
      In c0 (conversations st) -> Conversation.id c0 = cid ->
      exists c1,
        In c1 (conversations (addMessage now rnd content role st))
        /\ Conversation.id c1 = cid
        /\ Conversation.messages c1
           = Conversation.messages c0 ++ [Message.mk role content now]
        /\ Conversation.createdAt c1 = Conversation.createdAt c0.
Proof.
  intros Hcur Ht. unfold addMessage. rewrite Hcur. cbn [whenTruthy].
  rewrite Ht.
  destruct (find (hasId cid) (conversations st)) as [c|] eqn:Hfind.
  - split; [exact Hcur|]. intros c0 Hin Hid. cbn [conversations set_conversations].
    eexists. split; [apply in_map; exact Hin|].
    rewrite (proj2 (hasId_true_iff cid c0) Hid). cbn. auto.
  - split; [exact Hcur|]. intros c0 Hin Hid. exfalso.
    pose proof (find_none _ _ Hfind c0 Hin) as Hno.
    apply hasId_false_iff in Hno. contradiction.
Qed.

Lemma rekey_id (from to : jsstring) (c : Conversation.t) :
  (Conversation.id c = from -> Conversation.id (rekey from to c) = to)
  /\ (Conversation.id c <> from ->
      Conversation.id (rekey from to c) = Conversation.id c)
  /\ Conversation.messages (rekey from to c) = Conversation.messages c
  /\ Conversation.title (rekey from to c) = Conversation.title c
  /\ Conversation.createdAt (rekey from to c) = Conversation.createdAt c.
Proof.
  unfold rekey. destruct (hasId from c) eqn:Hh.
  - apply hasId_true_iff in Hh. cbn. repeat split; auto. contradiction.
  - apply hasId_false_iff in Hh. repeat split; auto. contradiction.
Qed.

Lemma rekey_leaves_none (from to : jsstring) (l : list Conversation.t) :
  to <> from ->
  forall c, In c (List.map (rekey from to) l) -> Conversation.id c <> from.
Proof.
  intros Hne c Hin. apply in_map_iff in Hin. destruct Hin as [x [<- _]].
  destruct (rekey_id from to x) as [Hyes [Hno _]].
  destruct (list_eq_dec N.eq_dec (Conversation.id x) from) as [He|He].
  - rewrite (Hyes He). exact Hne.
  - rewrite (Hno He). exact He.
Qed.

(** The store [sendMessage] leaves when a truthy id [cid] was current on
    entry and the response carries a non-empty generation and a truthy
    session id other than [cid]. *)
Lemma sendMessage_rekey_eq now1 rnd1 now2 rnd2 content data sessionsResponse
      (st : ChatStore) (cid : jsstring) :
  currentConversationId st = Some cid ->
  truthy cid = true ->
  truthy (ChatResponse.generation data) = true ->
  truthy (ChatResponse.session_id data) = true ->
  ChatResponse.session_id data <> cid ->
  let appended :=
    addMessage now2 rnd2 (ChatResponse.generation data) assistant
      (addMessage now1 rnd1 content user st) in
  conversations
    (snd (sendMessage now1 rnd1 now2 rnd2 content (Ok data)
                      sessionsResponse st))
  = List.map (rekey cid (ChatResponse.session_id data)) (conversations appended)
  /\ currentConversationId
       (snd (sendMessage now1 rnd1 now2 rnd2 content (Ok data)
                         sessionsResponse st))
     = Some (ChatResponse.session_id data).
Proof.
  intros Hcur Ht Hg Hs Hne appended. unfold sendMessage.
  cbn [snd]. rewrite Hg, Hs, Hcur. cbn [whenTruthy]. rewrite Ht.
  assert (Hsame : sameId (Some cid) (ChatResponse.session_id data) = false).
  { cbn. apply streq_false_iff. congruence. }
  rewrite Hsame. cbn [negb andb orb].
  rewrite !addMessage_set_isLoading.
  match goal with
  | |- context [loadSessions ?r ?s] =>
      destruct (loadSessions_conversations r s) as [Hc Hi];
      match goal with
      | |- _ = ?B /\ _ = ?D =>
          change (conversations (loadSessions r s) = B
                  /\ currentConversationId (loadSessions r s) = D)
      end;
      rewrite Hc, Hi
  end.
  split; reflexivity.
Qed.

(** C2.  Whenever a (non-empty) id [cid] is current when [sendMessage]
    starts and the chat response carries a non-empty generation and a
    (non-empty) session id [S] other than [cid]: the current id is [S]
    afterwards, no conversation is keyed by [cid] any more, and every
    conversation that was keyed by [cid] is found under [S], extended by
    the user message and the assistant message; such a conversation exists
    even when none was keyed by [cid] before. *)
Theorem sendMessage_rekeys_conversation
        (now1 : Date) (rnd1 : N) (now2 : Date) (rnd2 : N)
        (content : jsstring) (data : ChatResponse.t)
        (sessionsResponse : http SessionsResponse.t)
        (st : ChatStore) (cid : jsstring) :
  currentConversationId st = Some cid ->
  truthy cid = true ->
  truthy (ChatResponse.generation data) = true ->
  truthy (ChatResponse.session_id data) = true ->
  ChatResponse.session_id data <> cid ->
  let st' := snd (sendMessage now1 rnd1 now2 rnd2 content (Ok data)
                              sessionsResponse st) in
  let sent := Message.mk user content now1 in
  let reply := Message.mk assistant (ChatResponse.generation data) now2 in
  currentConversationId st' = Some (ChatResponse.session_id data)
  /\ (forall c, In c (conversations st') -> Conversation.id c <> cid)
  /\ (forall c0,
         In c0 (conversations st) -> Conversation.id c0 = cid ->
         exists c,
           In c (conversations st')
           /\ Conversation.id c = ChatResponse.session_id data
           /\ Conversation.messages c
              = Conversation.messages c0 ++ [sent; reply]
           /\ Conversation.createdAt c = Conversation.createdAt c0)
  /\ (exists c before,
         In c (conversations st')
         /\ Conversation.id c = ChatResponse.session_id data
         /\ Conversation.messages c = before ++ [sent; reply])
  /\ List.length (conversations st')
     = List.length
         (conversations
            (addMessage now2 rnd2 (ChatResponse.generation data) assistant
               (addMessage now1 rnd1 content user st))).
Proof.
  intros Hcur Ht Hg Hs Hne st' sent reply.
  destruct (sendMessage_rekey_eq now1 rnd1 now2 rnd2 content data
              sessionsResponse st cid Hcur Ht Hg Hs Hne) as [Hconv Hid].
  fold st' in Hconv, Hid.
  destruct (addMessage_on_current now1 rnd1 content user st cid Hcur Ht)
    as [Hcur1 Hext1].
  destruct (addMessage_on_current now2 rnd2 (ChatResponse.generation data)
              assistant _ cid Hcur1 Ht) as [Hcur2 Hext2].
  assert (Hmove : forall c2,
             In c2 (conversations
                      (addMessage now2 rnd2 (ChatResponse.generation data)
                         assistant (addMessage now1 rnd1 content user st))) ->
             Conversation.id c2 = cid ->
             In (rekey cid (ChatResponse.session_id data) c2)
                (conversations st')
             /\ Conversation.id (rekey cid (ChatResponse.session_id data) c2)
                = ChatResponse.session_id data).
  { intros c2 Hin Hc2. rewrite Hconv. split; [apply in_map; exact Hin|].
    apply rekey_id. exact Hc2. }
  split; [exact Hid|]. split.
  { rewrite Hconv. apply rekey_leaves_none. exact Hne. }
  split.
  { intros c0 Hin Hc0.
    destruct (Hext1 c0 Hin Hc0) as [c1 [Hin1 [Hid1 [Hm1 Hd1]]]].
    destruct (Hext2 c1 Hin1 Hid1) as [c2 [Hin2 [Hid2 [Hm2 Hd2]]]].
    destruct (Hmove c2 Hin2 Hid2) as [Hin3 Hid3].
    exists (rekey cid (ChatResponse.session_id data) c2).
    destruct (rekey_id cid (ChatResponse.session_id data) c2)
      as [_ [_ [Hm3 [_ Hd3]]]].
    split; [exact Hin3|]. split; [exact Hid3|].
    rewrite Hm3, Hm2, Hm1, Hd3, Hd2, Hd1, <- app_assoc. auto. }
  split.
  { destruct (addMessage_current_last now1 rnd1 content user st)
      as [cid1 [c1 [before [Hc1 [_ [Hfind Hm1]]]]]].
    rewrite Hcur1 in Hc1. inversion Hc1; subst cid1.
    apply find_some in Hfind. destruct Hfind as [Hin1 Hid1].
    apply hasId_true_iff in Hid1.
    destruct (Hext2 c1 Hin1 Hid1) as [c2 [Hin2 [Hid2 [Hm2 _]]]].
    destruct (Hmove c2 Hin2 Hid2) as [Hin3 Hid3].
    exists (rekey cid (ChatResponse.session_id data) c2), before.
    destruct (rekey_id cid (ChatResponse.session_id data) c2)
      as [_ [_ [Hm3 _]]].
    split; [exact Hin3|]. split; [exact Hid3|].
    rewrite Hm3, Hm2, Hm1, <- app_assoc. reflexivity. }
  rewrite Hconv. apply length_map.
Qed.

Lemma sendMessage_rekeys_conversation_witness :
  currentConversationId
    (snd (sendMessage (DateNow 1) 7 (DateNow 2) 8 shortContent
                      (Ok (replyWith sessionC)) (refreshed sessionC)
                      twoLoaded))
  = Some sessionC
  /\ conversationIds
       (snd (sendMessage (DateNow 1) 7 (DateNow 2) 8 shortContent
                         (Ok (replyWith sessionC)) (refreshed sessionC)
                         twoLoaded))
     = [sessionA; sessionC].
Proof.
  split; [|reflexivity].
  apply (sendMessage_rekeys_conversation
           (DateNow 1) 7 (DateNow 2) 8 shortContent (replyWith sessionC)
           (refreshed sessionC) twoLoaded sessionB);
    try reflexivity.
  vm_compute. discriminate.
Defined.

(** Appending with no truthy current id mints a conversation. *)
Lemma addMessage_mint now rnd content role (st : ChatStore) :
  whenTruthy (currentConversationId st) = None ->
  addMessage now rnd content role st
  = set_currentConversationId (Some (uuidv4 rnd))
      (set_conversations
         (Conversation.mk (uuidv4 rnd) (titleFor role content)
                          [Message.mk role content now] now now
            :: conversations st)
         st).
Proof. intros Hw. unfold addMessage. rewrite Hw. reflexivity. Qed.

(** C1, as the code has it.  From the initial store, a [sendMessage]
    answered with a non-empty generation and a non-empty session id [S]
    leaves exactly one conversation, holding the user message then the
    assistant message, and makes [S] the current id; but the conversation
    keeps the temporary id minted by the optimistic append: the re-keying
    is decided on the current id read on entry, which was null.  Unless the
    minted id happens to be [S], no conversation is keyed by [S]. *)
Theorem sendMessage_first_exchange_keeps_temporary_id
        (now1 : Date) (rnd1 : N) (now2 : Date) (rnd2 : N)
        (content : jsstring) (data : ChatResponse.t)
        (sessionsResponse : http SessionsResponse.t)
        (defaultApiKey host : jsstring) :
  truthy (ChatResponse.generation data) = true ->
  truthy (ChatResponse.session_id data) = true ->
  let st' := snd (sendMessage now1 rnd1 now2 rnd2 content (Ok data)
                              sessionsResponse
                              (initialStore defaultApiKey host)) in
  conversations st'
  = [Conversation.mk (uuidv4 rnd1) (createTitleFromContent content)
       [Message.mk user content now1;
        Message.mk assistant (ChatResponse.generation data) now2]
       now1 now2]
  /\ currentConversationId st' = Some (ChatResponse.session_id data)
  /\ (uuidv4 rnd1 <> ChatResponse.session_id data ->
      find (hasId (ChatResponse.session_id data)) (conversations st') = None).
Proof.
  intros Hg Hs st'.
  assert (Hconv : conversations st'
  = [Conversation.mk (uuidv4 rnd1) (createTitleFromContent content)
       [Message.mk user content now1;
        Message.mk assistant (ChatResponse.generation data) now2]
       now1 now2]
  /\ currentConversationId st' = Some (ChatResponse.session_id data)).
  { subst st'. unfold sendMessage. cbn [snd]. rewrite Hg, Hs.
    cbn [currentConversationId initialStore whenTruthy negb andb orb].
    rewrite (addMessage_mint now1 rnd1 content user) by reflexivity.
    match goal with
    | |- context [loadSessions ?r ?s] =>
        destruct (loadSessions_conversations r s) as [Hc Hi];
        match goal with
        | |- _ = ?B /\ _ = ?D =>
            change (conversations (loadSessions r s) = B
                    /\ currentConversationId (loadSessions r s) = D)
        end;
        rewrite Hc, Hi
    end.
    split; [|reflexivity].
    unfold addMessage. cbn. rewrite uuidv4_truthy. cbn.
    unfold hasId. cbn. rewrite streq_refl. cbn. reflexivity. }
  destruct Hconv as [Hconv Hid]. split; [exact Hconv|]. split; [exact Hid|].
  intros Hne. rewrite Hconv. cbn. unfold hasId. cbn.
  rewrite (proj2 (streq_false_iff _ _) Hne). reflexivity.
Qed.

Lemma sendMessage_first_exchange_witness :
  conversationIds
    (snd (sendMessage (DateNow 1) 7 (DateNow 2) 8 shortContent
                      (Ok (replyWith sessionC)) (refreshed sessionC)
                      emptyStore))
  = [uuidv4 7]
  /\ currentConversationId
       (snd (sendMessage (DateNow 1) 7 (DateNow 2) 8 shortContent
                         (Ok (replyWith sessionC)) (refreshed sessionC)
                         emptyStore))
     = Some sessionC
  /\ find (hasId sessionC)
          (conversations
             (snd (sendMessage (DateNow 1) 7 (DateNow 2) 8 shortContent
                               (Ok (replyWith sessionC)) (refreshed sessionC)
                               emptyStore)))
     = None
  /\ sessions
       (snd (sendMessage (DateNow 1) 7 (DateNow 2) 8 shortContent
                         (Ok (replyWith sessionC)) (refreshed sessionC)
                         emptyStore))
     = [summaryOf sessionC].
Proof.
  split; [reflexivity|]. split; [|split; [|reflexivity]].
  - apply (sendMessage_first_exchange_keeps_temporary_id
             (DateNow 1) 7 (DateNow 2) 8 shortContent (replyWith sessionC)
             (refreshed sessionC) (lit "key") (lit "host:8000")
             eq_refl eq_refl).
  - apply (sendMessage_first_exchange_keeps_temporary_id
             (DateNow 1) 7 (DateNow 2) 8 shortContent (replyWith sessionC)
             (refreshed sessionC) (lit "key") (lit "host:8000")
             eq_refl eq_refl).
    vm_compute. discriminate.
Defined.

(* ================================================================== *)
(** ** At most one conversation per id *)
(* ================================================================== *)

Lemma ids_filter_incl (p : Conversation.t -> bool) (l : list Conversation.t)
      (x : jsstring) :
  In x (idsOf (filter p l)) -> In x (idsOf l).
Proof.
  unfold idsOf. rewrite !in_map_iff. intros [c [Hc Hin]].
  apply filter_In in Hin. exists c. tauto.
Qed.

Lemma ids_filter_NoDup (p : Conversation.t -> bool) (l : list Conversation.t) :
  NoDup (idsOf l) -> NoDup (idsOf (filter p l)).
Proof.
  induction l as [|c l IH]; simpl; intros Hnd; [constructor|].
  inversion Hnd as [|? ? Hnotin Hrest]; subst.
  destruct (p c); [|auto].
  simpl. constructor; [|auto].
  intros Hin. apply Hnotin. eapply ids_filter_incl. exact Hin.
Qed.

Lemma ids_filter_out (cid : jsstring) (l : list Conversation.t) :
  ~ In cid (idsOf (filter (fun c => negb (hasId cid c)) l)).
Proof.
  unfold idsOf. rewrite in_map_iff. intros [c [Hc Hin]].
  apply filter_In in Hin. destruct Hin as [_ Hneg].
  apply negb_true_iff, hasId_false_iff in Hneg. contradiction.
Qed.

Lemma find_hasId_None (cid : jsstring) (l : list Conversation.t) :
  find (hasId cid) l = None <-> ~ In cid (idsOf l).
Proof.
  unfold idsOf. rewrite in_map_iff. split.
  - intros Hnone [c [Hc Hin]].
    pose proof (find_none _ _ Hnone c Hin) as Hno.
    apply hasId_false_iff in Hno. contradiction.
  - intros Hno. destruct (find (hasId cid) l) as [c|] eqn:Hf; [|reflexivity].
    exfalso. apply find_some in Hf. destruct Hf as [Hin Hc].
    apply hasId_true_iff in Hc. apply Hno. exists c. auto.
Qed.

(** What an append does to the list of ids. *)
Lemma addMessage_ids now rnd content role (st : ChatStore) :
  (whenTruthy (currentConversationId st) = None
   /\ conversationIds (addMessage now rnd content role st)
      = uuidv4 rnd :: conversationIds st)
  \/ (exists cid,
         whenTruthy (currentConversationId st) = Some cid
         /\ currentConversationId (addMessage now rnd content role st)
            = currentConversationId st
         /\ In cid (conversationIds (addMessage now rnd content role st))
         /\ (conversationIds (addMessage now rnd content role st)
             = conversationIds st
             \/ (~ In cid (conversationIds st)
                 /\ conversationIds (addMessage now rnd content role st)
                    = cid :: conversationIds st))).
Proof.
  unfold addMessage, conversationIds, idsOf.
  destruct (whenTruthy (currentConversationId st)) as [cid|] eqn:Hw.
  - right. exists cid. split; [reflexivity|].
    destruct (find (hasId cid) (conversations st)) as [c|] eqn:Hf.
    + assert (Hids : List.map Conversation.id
                (List.map
                   (fun conv =>
                      if hasId cid conv then
                        Conversation.mk (Conversation.id conv)
                          (if isUser role
                              && ((List.length (Conversation.messages conv) =? 0)%nat
                                  || streq (Conversation.title conv)
                                           (lit "New conversation")
                                  || streq (Conversation.title conv)
                                           (lit "New Chat"))
                           then createTitleFromContent content
                           else Conversation.title conv)
                          (Conversation.messages conv
                             ++ [Message.mk role content now])
                          (Conversation.createdAt conv) now
                      else conv)
                   (conversations st))
              = List.map Conversation.id (conversations st)).
      { rewrite map_map. apply map_ext. intros conv.
        destruct (hasId cid conv); reflexivity. }
      cbn [conversations set_conversations currentConversationId].
      rewrite Hids. split; [reflexivity|]. split; [|left; reflexivity].
      apply find_some in Hf. destruct Hf as [Hin Hc].
      apply hasId_true_iff in Hc. apply in_map_iff. exists c. auto.
    + cbn. split; [reflexivity|]. split; [left; reflexivity|].
      right. split; [|reflexivity].
      apply find_hasId_None. exact Hf.
  - left. split; reflexivity.
Qed.

Lemma addMessage_uniqueIds now rnd content role (st : ChatStore) :
  uniqueIds st -> mintsFresh rnd st ->
  uniqueIds (addMessage now rnd content role st).
Proof.
  unfold uniqueIds, mintsFresh. intros Hnd Hfresh.
  destruct (addMessage_ids now rnd content role st)
    as [[Hw ->] | [cid [_ [_ [_ [-> | [Hnot ->]]]]]]].
  - constructor; auto.
  - exact Hnd.
  - constructor; auto.
Qed.

Lemma loadConversation_uniqueIds response sessionId (st : ChatStore) :
  uniqueIds st -> uniqueIds (loadConversation response sessionId st).
Proof.
  unfold uniqueIds, conversationIds, idsOf, loadConversation. intros Hnd.
  destruct response as [|data]; [exact Hnd|].
  destruct (ConversationResponse.messages data); [|exact Hnd].
  destruct (ConversationResponse.metadata data); [|exact Hnd].
  cbn. rewrite map_app. apply NoDup_app.
  - apply ids_filter_NoDup. exact Hnd.
  - repeat constructor. intros [].
  - intros a Hin [<-|[]]. revert Hin. apply ids_filter_out.
Qed.

Lemma deleteSession_uniqueIds response sessionId (st : ChatStore) :
  uniqueIds st -> uniqueIds (deleteSession response sessionId st).
Proof.
  unfold uniqueIds, conversationIds, idsOf, deleteSession. intros Hnd.
  destruct response as [|[]]; [exact Hnd|].
  cbn. apply ids_filter_NoDup. exact Hnd.
Qed.

Lemma connect_uniqueIds healthCheck sessionsResponse (st : ChatStore) :
  uniqueIds st -> uniqueIds (fst (connect healthCheck sessionsResponse st)).
Proof.
  unfold uniqueIds, conversationIds, idsOf, connect. intros Hnd.
  destruct healthCheck as [|data]; [exact Hnd|].
  destruct (streq (HealthResponse.status data) (lit "healthy"));
    [|exact Hnd].
  cbn [fst].
  match goal with
  | |- context [loadSessions ?r ?s] =>
      rewrite (proj1 (loadSessions_conversations r s))
  end.
  constructor.
Qed.

(** Re-keying keeps idsOf distinct when the new id is not in use. *)
Lemma rekey_ids_incl (from to : jsstring) (l : list Conversation.t)
      (x : jsstring) :
  In x (idsOf (List.map (rekey from to) l)) -> x = to \/ In x (idsOf l).
Proof.
  unfold idsOf. rewrite map_map, !in_map_iff. intros [c [Hc Hin]].
  destruct (rekey_id from to c) as [Hyes [Hno _]].
  destruct (list_eq_dec N.eq_dec (Conversation.id c) from) as [He|He].
  - left. rewrite (Hyes He) in Hc. congruence.
  - right. rewrite (Hno He) in Hc. exists c. auto.
Qed.

Lemma rekey_NoDup (from to : jsstring) (l : list Conversation.t) :
  NoDup (idsOf l) -> ~ In to (idsOf l) ->
  NoDup (idsOf (List.map (rekey from to) l)).
Proof.
  induction l as [|c l IH]; simpl; intros Hnd Hto; [constructor|].
  inversion Hnd as [|? ? Hnotin Hrest]; subst.
  assert (Hto' : ~ In to (idsOf l)) by (intros H; apply Hto; right; exact H).
  constructor; [|apply IH; assumption].
  intros Hin.
  destruct (rekey_id from to c) as [Hyes [Hno _]].
  destruct (list_eq_dec N.eq_dec (Conversation.id c) from) as [He|He].
  - rewrite (Hyes He) in Hin. unfold idsOf in Hin.
    rewrite map_map, in_map_iff in Hin. destruct Hin as [x [Hx Hxin]].
    destruct (rekey_id from to x) as [_ [Hno' _]].
    destruct (list_eq_dec N.eq_dec (Conversation.id x) from) as [Hx'|Hx'].
    + apply Hnotin. rewrite He, <- Hx'. apply in_map. exact Hxin.
    + rewrite (Hno' Hx') in Hx. apply Hto'. rewrite <- Hx.
      apply in_map. exact Hxin.
  - rewrite (Hno He) in Hin. apply rekey_ids_incl in Hin.
    destruct Hin as [Heq | Hin]; [|contradiction].
    apply Hto. left. exact Heq.
Qed.

Lemma sendMessage_uniqueIds now1 rnd1 now2 rnd2 content response
      sessionsResponse (st : ChatStore) :
  uniqueIds st -> mintsFresh rnd1 st -> answersInPlace response st ->
  uniqueIds (snd (sendMessage now1 rnd1 now2 rnd2 content response
                              sessionsResponse st)).
Proof.
  intros Hnd Hfresh Hans.
  pose (st2 := addMessage now1 rnd1 content user st).
  assert (U2 : uniqueIds st2) by (apply addMessage_uniqueIds; assumption).
  destruct (addMessage_current_last now1 rnd1 content user st)
    as [cid2 [c2 [b2 [Hcur2 [Ht2 _]]]]].
  fold st2 in Hcur2.
  assert (Hw2 : whenTruthy (currentConversationId st2) = Some cid2)
    by (apply whenTruthy_Some; auto).
  assert (U3 : forall g, uniqueIds (addMessage now2 rnd2 g assistant st2)).
  { intros g. apply addMessage_uniqueIds; [exact U2|].
    intros Hw. congruence. }
  unfold sendMessage. rewrite addMessage_set_isLoading. fold st2.
  destruct response as [|data]; [exact U2|].
  cbn [snd]. destruct (truthy (ChatResponse.generation data)); [|exact U2].
  rewrite addMessage_set_isLoading.
  set (S := ChatResponse.session_id data) in *.
  set (g := ChatResponse.generation data) in *.
  match goal with
  | |- context [if ?b then _ else _] => destruct b eqn:Hcond
  end; [|exact (U3 g)].
  destruct (whenTruthy (currentConversationId st)) as [C|] eqn:Hw.
  - unfold uniqueIds, conversationIds, idsOf.
    match goal with
    | |- context [loadSessions ?r ?s] =>
        change (NoDup (List.map Conversation.id
                                (conversations (loadSessions r s))));
        rewrite (proj1 (loadSessions_conversations r s))
    end.
    cbn [conversations set_conversations set_currentConversationId
         set_isLoading].
    apply rekey_NoDup; [exact (U3 g)|].
    apply andb_true_iff in Hcond. destruct Hcond as [_ Hor].
    cbn [negb orb] in Hor. apply negb_true_iff in Hor.
    assert (Hcur : currentConversationId st <> Some S).
    { intros H. apply sameId_true_iff in H. congruence. }
    destruct (Hans data eq_refl) as [Hsame | HnotS]; [contradiction|].
    destruct (proj1 (whenTruthy_Some _ _) Hw) as [HC _].
    assert (HneC : S <> C) by congruence.
    destruct (addMessage_ids now1 rnd1 content user st)
      as [[Hnone _] | [cid [Hcid [Hkeep [_ Hids2]]]]]; [congruence|].
    assert (cid = C) by congruence. subst cid.
    fold st2 in Hkeep, Hids2.
    assert (Hcid2 : cid2 = C) by congruence. subst cid2.
    assert (Hin2 : forall x, In x (conversationIds st2) ->
                             x = C \/ In x (conversationIds st)).
    { intros x Hx. destruct Hids2 as [Heq | [_ Heq]]; rewrite Heq in Hx.
      - right. exact Hx.
      - destruct Hx as [<- | Hx]; auto. }
    intros Hin3.
    assert (Hin3' : S = C \/ In S (conversationIds st2)).
    { destruct (addMessage_ids now2 rnd2 g assistant st2)
        as [[Hnone _] | [cid [Hcid' [_ [_ [Heq | [_ Heq]]]]]]].
      - congruence.
      - right. rewrite <- Heq. exact Hin3.
      - assert (cid = C) by congruence. subst cid.
        unfold conversationIds, idsOf in Heq, Hin3. rewrite Heq in Hin3.
        destruct Hin3 as [<- | Hx]; auto. }
    destruct Hin3' as [Heq | Hin]; [congruence|].
    destruct (Hin2 S Hin); [contradiction | contradiction].
  - unfold uniqueIds, conversationIds, idsOf.
    match goal with
    | |- context [loadSessions ?r ?s] =>
        change (NoDup (List.map Conversation.id
                                (conversations (loadSessions r s))));
        rewrite (proj1 (loadSessions_conversations r s))
    end.
    exact (U3 g).
Qed.

Lemma step_uniqueIds (op : Op) (st : ChatStore) :
  uniqueIds st -> keepsIdsApart op st -> uniqueIds (step op st).
Proof.
  intros Hnd Hop. destruct op; cbn [step keepsIdsApart] in *;
    try exact Hnd.
  - constructor.
  - apply connect_uniqueIds. exact Hnd.
  - unfold uniqueIds, conversationIds, idsOf.
    rewrite (proj1 (loadSessions_conversations _ _)). exact Hnd.
  - apply loadConversation_uniqueIds. exact Hnd.
  - destruct Hop. apply sendMessage_uniqueIds; assumption.
  - apply addMessage_uniqueIds; assumption.
  - unfold setCurrentConversation.
    destruct (find (hasId id) (conversations st));
      [exact Hnd | apply loadConversation_uniqueIds; exact Hnd].
  - apply deleteSession_uniqueIds. exact Hnd.
  - apply deleteSession_uniqueIds. exact Hnd.
Qed.

(** X25.  Along a run in which no append mints an id already in use and
    no chat response names a conversation other than the current one, no
    two conversations ever share an id. *)
Lemma run_uniqueIds (ops : list Op) :
  forall st,
    uniqueIds st -> runKeepsIdsApart ops st -> uniqueIds (run ops st).
Proof.
  induction ops as [|op ops IH]; intros st Hnd Hrun; [exact Hnd|].
  destruct Hrun as [Hop Hrest]. cbn [run].
  apply IH; [apply step_uniqueIds; assumption | exact Hrest].
Qed.

(** C9 fails on the code.  From the empty store, load the session list and
    the two sessions A and B, then send a message while B is current: when
    the chat response names A, the conversation keyed by B is re-keyed to A
    next to the one already keyed by A. *)
Theorem sendMessage_duplicates_conversation_id :
  uniqueIds emptyStore
  /\ run (firstn 3 collidingRun) emptyStore = twoLoaded
  /\ uniqueIds twoLoaded
  /\ conversationIds twoLoaded = [sessionA; sessionB]
  /\ currentConversationId twoLoaded = Some sessionB
  /\ conversationIds (run collidingRun emptyStore) = [sessionA; sessionA]
  /\ ~ uniqueIds (run collidingRun emptyStore).
Proof.
  split; [constructor|]. split; [reflexivity|].
  split; [repeat constructor; cbn; intuition discriminate|].
  split; [reflexivity|]. split; [reflexivity|]. split; [reflexivity|].
  intros Hnd. inversion Hnd as [|x l Hnotin _]; subst.
  apply Hnotin. left. reflexivity.
Qed.


(* ================================================================== *)
(** ** Further properties: connecting and the loading flag *)
(* ================================================================== *)

Lemma probeHealthy_dec (healthCheck : http HealthResponse.t) :
  match healthCheck with
  | Ok data => streq (HealthResponse.status data) (lit "healthy")
  | Failed => false
  end = true <-> probeHealthy healthCheck.
Proof.
  unfold probeHealthy. destruct healthCheck as [|data].
  - split; [discriminate | intros [d [H _]]; discriminate].
  - rewrite streq_true_iff. split.
    + intros H. exists data. auto.
    + intros [d [Hd Hs]]. inversion Hd; subst. exact Hs.
Qed.

(** X1.  [connect] reports success exactly when the probe answers with
    status ["healthy"]; its result is the connection flag it leaves.  On
    success the error text is null.  Otherwise an error text is set, the
    loading flag is cleared, and conversations, session list and current
    id are those from before the call. *)
Theorem connect_result
        (healthCheck : http HealthResponse.t)
        (sessionsResponse : http SessionsResponse.t) (st : ChatStore) :
  snd (connect healthCheck sessionsResponse st)
  = isConnected (fst (connect healthCheck sessionsResponse st))
  /\ (snd (connect healthCheck sessionsResponse st) = true
      <-> probeHealthy healthCheck)
  /\ (snd (connect healthCheck sessionsResponse st) = true ->
      connectionError (fst (connect healthCheck sessionsResponse st)) = None)
  /\ (snd (connect healthCheck sessionsResponse st) = false ->
      connectionError (fst (connect healthCheck sessionsResponse st)) <> None
      /\ isLoading (fst (connect healthCheck sessionsResponse st)) = false
      /\ conversations (fst (connect healthCheck sessionsResponse st))
         = conversations st
      /\ sessions (fst (connect healthCheck sessionsResponse st)) = sessions st
      /\ currentConversationId (fst (connect healthCheck sessionsResponse st))
         = currentConversationId st).
Proof.
  rewrite <- probeHealthy_dec. unfold connect.
  destruct healthCheck as [|data].
  - cbn. repeat split; intros; try discriminate; try tauto.
  - destruct (streq (HealthResponse.status data) (lit "healthy")).
    + cbn [fst snd].
      destruct sessionsResponse as [|[[l|]]]; cbn;
        repeat split; intros; try discriminate; try tauto.
    + cbn. repeat split; intros; try discriminate; try tauto.
Qed.

(** X2.  Where the loading flag ends.  [sendMessage] and [deleteSession]
    always clear it.  [loadSessions] leaves it set exactly when the answer
    has no [sessions] field, [loadConversation] exactly when the answer has
    no [messages] field, and [connect] exactly when the probe is healthy
    and the session list answers without a [sessions] field. *)
Theorem loading_flag_after
        (now1 : Date) (rnd1 : N) (now2 : Date) (rnd2 : N)
        (content sessionId : jsstring)
        (chat : http ChatResponse.t) (deleted : http unit)
        (healthCheck : http HealthResponse.t)
        (sessionsResponse : http SessionsResponse.t)
        (conversation : http ConversationResponse.t) (st : ChatStore) :
  isLoading (snd (sendMessage now1 rnd1 now2 rnd2 content chat
                              sessionsResponse st)) = false
  /\ isLoading (deleteSession deleted sessionId st) = false
  /\ (isLoading (loadSessions sessionsResponse st) = true
      <-> lacksSessions sessionsResponse)
  /\ (isLoading (loadConversation conversation sessionId st) = true
      <-> lacksMessages conversation)
  /\ (isLoading (fst (connect healthCheck sessionsResponse st)) = true
      <-> probeHealthy healthCheck /\ lacksSessions sessionsResponse).
Proof.
  assert (Hls : forall s, isLoading (loadSessions sessionsResponse s) = true
                          <-> lacksSessions sessionsResponse).
  { intros s. unfold lacksSessions, loadSessions.
    destruct sessionsResponse as [|[[l|]]]; cbn.
    - split; [discriminate | intros [d [H _]]; discriminate].
    - split; [discriminate|]. intros [d [H Hn]]. inversion H; subst.
      discriminate.
    - split; [intros _; eexists; split; reflexivity | reflexivity]. }
  split.
  { unfold sendMessage. destruct chat; reflexivity. }
  split.
  { unfold deleteSession. destruct deleted; reflexivity. }
  split; [apply Hls|]. split.
  - unfold lacksMessages, loadConversation.
    destruct conversation as [|data]; cbn.
    + split; [discriminate | intros [d [H _]]; discriminate].
    + destruct (ConversationResponse.messages data) as [msgs|] eqn:Hm.
      * split.
        -- destruct (ConversationResponse.metadata data); discriminate.
        -- intros [d [H Hn]]. inversion H; subst. congruence.
      * split; [intros _; exists data; auto | reflexivity].
  - rewrite <- probeHealthy_dec. unfold connect.
    destruct healthCheck as [|data].
    + cbn. split; [discriminate | intros [H _]; discriminate].
    + destruct (streq (HealthResponse.status data) (lit "healthy")).
      * cbn [fst]. rewrite Hls. tauto.
      * cbn. split; [discriminate | intros [H _]; discriminate].
Qed.

(* ================================================================== *)
(** ** Further properties: loading and selecting a conversation *)
(* ================================================================== *)

Lemma filter_twice {A : Type} (f : A -> bool) (l : list A) :
  filter f (filter f l) = filter f l.
Proof.
  induction l as [|x l IH]; [reflexivity|]. simpl.
  destruct (f x) eqn:Hx; [simpl; rewrite Hx, IH; reflexivity | exact IH].
Qed.

Lemma filter_of_complement {A : Type} (f : A -> bool) (l : list A) :
  filter f (filter (fun x => negb (f x)) l) = [].
Proof.
  induction l as [|x l IH]; [reflexivity|]. simpl.
  destruct (f x) eqn:Hx; simpl; [exact IH | rewrite Hx; exact IH].
Qed.

Lemma filter_all {A : Type} (f : A -> bool) (l : list A) :
  (forall x, In x l -> f x = true) -> filter f l = l.
Proof.
  induction l as [|x l IH]; intros H; [reflexivity|]. simpl.
  rewrite (H x (or_introl eq_refl)), IH; [reflexivity|].
  intros y Hy. apply H. right. exact Hy.
Qed.

Lemma loadConversation_transcript response msgs metadata sessionId
      (st : ChatStore) :
  transcript response msgs metadata ->
  loadConversation response sessionId st
  = set_isLoading false
      (set_currentConversationId (Some sessionId)
         (set_conversations
            (othersThan sessionId st ++ [fromTranscript sessionId msgs metadata])
            st)).
Proof.
  intros [data [-> [Hm Hd]]]. unfold loadConversation. rewrite Hm, Hd.
  reflexivity.
Qed.

Lemma loadConversation_no_transcript response sessionId (st : ChatStore) :
  (forall msgs metadata, ~ transcript response msgs metadata) ->
  loadConversation response sessionId st = set_isLoading false st
  \/ loadConversation response sessionId st = set_isLoading true st.
Proof.
  intros Hno. unfold loadConversation. destruct response as [|data].
  - left. reflexivity.
  - destruct (ConversationResponse.messages data) as [msgs|] eqn:Hm.
    + destruct (ConversationResponse.metadata data) as [md|] eqn:Hd.
      * exfalso. apply (Hno msgs md). exists data. auto.
      * left. reflexivity.
    + right. reflexivity.
Qed.

Lemma hasId_fromTranscript sessionId msgs metadata :
  hasId sessionId (fromTranscript sessionId msgs metadata) = true.
Proof. apply hasId_true_iff. reflexivity. Qed.

(** X3.  When the transcript answers with its messages and metadata,
    [loadConversation] makes its id current and leaves exactly one
    conversation keyed by it, placed last; that conversation carries the
    messages of the transcript in order, and the server title unless it is
    empty.  Conversations with other ids keep their place and content. *)
Theorem loadConversation_upsert
        (response : http ConversationResponse.t)
        (msgs : list ApiMessage.t) (metadata : Metadata.t)
        (sessionId : jsstring) (st : ChatStore) :
  transcript response msgs metadata ->
  currentConversationId (loadConversation response sessionId st)
  = Some sessionId
  /\ keyedCount sessionId (loadConversation response sessionId st) = 1%nat
  /\ othersThan sessionId (loadConversation response sessionId st)
     = othersThan sessionId st
  /\ sessions (loadConversation response sessionId st) = sessions st
  /\ exists c,
      conversations (loadConversation response sessionId st)
      = othersThan sessionId st ++ [c]
      /\ Conversation.id c = sessionId
      /\ List.map Message.role (Conversation.messages c)
         = List.map ApiMessage.role msgs
      /\ List.map Message.content (Conversation.messages c)
         = List.map ApiMessage.content msgs
      /\ (truthy (Metadata.title metadata) = true ->
          Conversation.title c = Metadata.title metadata)
      /\ (Metadata.title metadata = [] ->
          Conversation.title c = lit "Conversation").
Proof.
  intros Ht. rewrite (loadConversation_transcript _ _ _ _ _ Ht).
  unfold keyedCount, othersThan.
  cbn [conversations sessions currentConversationId set_isLoading
       set_currentConversationId set_conversations].
  split; [reflexivity|]. split.
  { rewrite filter_app, filter_of_complement. cbn [filter app].
    rewrite hasId_fromTranscript. reflexivity. }
  split.
  { rewrite filter_app, filter_twice. cbn [filter].
    rewrite hasId_fromTranscript. cbn [negb]. apply app_nil_r. }
  split; [reflexivity|].
  exists (fromTranscript sessionId msgs metadata).
  split; [reflexivity|]. split; [reflexivity|]. unfold fromTranscript.
  cbn [Conversation.messages Conversation.title].
  rewrite !map_map. cbn. split; [reflexivity|]. split; [reflexivity|].
  split.
  - intros Htitle. rewrite Htitle. reflexivity.
  - intros Htitle. rewrite Htitle. reflexivity.
Qed.

Lemma loadConversation_upsert_witness :
  currentConversationId
    (loadConversation (Ok (transcriptOf sessionA)) sessionA twoLoaded)
  = Some sessionA
  /\ conversationIds
       (loadConversation (Ok (transcriptOf sessionA)) sessionA twoLoaded)
     = [sessionB; sessionA].
Proof.
  split; [|reflexivity].
  apply (loadConversation_upsert
           (Ok (transcriptOf sessionA))
           [ApiMessage.mk user (lit "Hello");
            ApiMessage.mk assistant (lit "Hi")]
           (Metadata.mk (lit "2025-01-01T00:00:00Z")
                        (lit "2025-01-02T00:00:00Z") 2
                        (lit "Quarterly numbers"))
           sessionA twoLoaded).
  exists (transcriptOf sessionA). repeat split.
Defined.

(** X4.  Loading a conversation twice on the same answer gives the store
    that loading it once gives, whatever the answer. *)
Theorem loadConversation_idempotent
        (response : http ConversationResponse.t)
        (sessionId : jsstring) (st : ChatStore) :
  loadConversation response sessionId
    (loadConversation response sessionId st)
  = loadConversation response sessionId st.
Proof.
  destruct response as [|data]; [reflexivity|].
  destruct (ConversationResponse.messages data) as [msgs|] eqn:Hm.
  - destruct (ConversationResponse.metadata data) as [md|] eqn:Hd.
    + assert (Ht : transcript (Ok data) msgs md) by (exists data; auto).
      rewrite !(loadConversation_transcript _ _ _ _ _ Ht).
      unfold othersThan.
      cbn [conversations sessions currentConversationId set_isLoading
       set_currentConversationId set_conversations].
      rewrite filter_app, filter_twice. cbn [filter].
      rewrite hasId_fromTranscript. cbn [negb]. rewrite app_nil_r.
      reflexivity.
    + unfold loadConversation. rewrite Hm, Hd. reflexivity.
  - unfold loadConversation. rewrite Hm. reflexivity.
Qed.

(** X5.  Deleting a session right after loading it leaves the
    conversations that had another id, in their order, and no current
    conversation; when no conversation was keyed by the id before the
    load, the list of conversations is back to what it was. *)
Theorem deleteSession_after_loadConversation
        (response : http ConversationResponse.t)
        (msgs : list ApiMessage.t) (metadata : Metadata.t)
        (sessionId : jsstring) (st : ChatStore) :
  transcript response msgs metadata ->
  conversations
    (deleteSession (Ok tt) sessionId (loadConversation response sessionId st))
  = othersThan sessionId st
  /\ currentConversationId
       (deleteSession (Ok tt) sessionId
          (loadConversation response sessionId st))
     = None
  /\ (keyedCount sessionId st = 0%nat ->
      conversations
        (deleteSession (Ok tt) sessionId
           (loadConversation response sessionId st))
      = conversations st).
Proof.
  intros Ht. rewrite (loadConversation_transcript _ _ _ _ _ Ht).
  unfold deleteSession, othersThan, keyedCount.
  cbn [conversations sessions currentConversationId set_isLoading
       set_currentConversationId set_conversations].
  assert (Hc : filter (fun conv => negb (hasId sessionId conv))
                 (filter (fun c => negb (hasId sessionId c)) (conversations st)
                  ++ [fromTranscript sessionId msgs metadata])
               = filter (fun c => negb (hasId sessionId c)) (conversations st)).
  { rewrite filter_app, filter_twice. cbn [filter].
    rewrite hasId_fromTranscript. cbn [negb]. apply app_nil_r. }
  rewrite Hc. cbn [sameId]. rewrite streq_refl. split; [reflexivity|]. split; [reflexivity|].
  intros Hzero. apply filter_all. intros c Hin.
  destruct (hasId sessionId c) eqn:Hh; [|reflexivity].
  exfalso. apply length_zero_iff_nil in Hzero.
  assert (Hf : In c (filter (hasId sessionId) (conversations st)))
    by (apply filter_In; auto).
  rewrite Hzero in Hf. exact Hf.
Qed.

Lemma deleteSession_after_loadConversation_witness :
  conversations
    (deleteSession (Ok tt) sessionC
       (loadConversation (Ok (transcriptOf sessionC)) sessionC twoLoaded))
  = conversations twoLoaded.
Proof.
  refine (proj2 (proj2 (deleteSession_after_loadConversation
           (Ok (transcriptOf sessionC))
           [ApiMessage.mk user (lit "Hello");
            ApiMessage.mk assistant (lit "Hi")]
           (Metadata.mk (lit "2025-01-01T00:00:00Z")
                        (lit "2025-01-02T00:00:00Z") 2
                        (lit "Quarterly numbers"))
           sessionC twoLoaded _)) _).
  - exists (transcriptOf sessionC). repeat split.
  - reflexivity.
Defined.

Lemma find_hasId_Some_iff (cid : jsstring) (l : list Conversation.t) :
  (exists c, find (hasId cid) l = Some c)
  <-> exists c, In c l /\ Conversation.id c = cid.
Proof.
  split.
  - intros [c Hf]. apply find_some in Hf. destruct Hf as [Hin Hc].
    apply hasId_true_iff in Hc. exists c. auto.
  - intros [c [Hin Hc]].
    destruct (find (hasId cid) l) as [x|] eqn:Hf; [exists x; reflexivity|].
    apply find_hasId_None in Hf. exfalso. apply Hf.
    unfold idsOf. apply in_map_iff. exists c. auto.
Qed.

(** X6.  [setCurrentConversation] on the id of a loaded conversation only
    moves the current id, and the transcript answer is not used.
    Otherwise it is [loadConversation].  Whenever the conversation was
    loaded or the transcript answers with messages and metadata, the id
    is current afterwards and keys a conversation; when neither holds,
    conversations and current id stay as they were. *)
Theorem setCurrentConversation_selects
        (response : http ConversationResponse.t) (id : jsstring)
        (st : ChatStore) :
  ((exists c, In c (conversations st) /\ Conversation.id c = id) ->
   setCurrentConversation response id st
   = set_currentConversationId (Some id) st)
  /\ ((forall c, In c (conversations st) -> Conversation.id c <> id) ->
      setCurrentConversation response id st = loadConversation response id st)
  /\ ((exists c, In c (conversations st) /\ Conversation.id c = id)
      \/ (exists msgs metadata, transcript response msgs metadata) ->
      currentConversationId (setCurrentConversation response id st) = Some id
      /\ (exists c, In c (conversations (setCurrentConversation response id st))
                    /\ Conversation.id c = id)
      /\ othersThan id (setCurrentConversation response id st)
         = othersThan id st)
  /\ ((forall c, In c (conversations st) -> Conversation.id c <> id) ->
      (forall msgs metadata, ~ transcript response msgs metadata) ->
      currentConversationId (setCurrentConversation response id st)
      = currentConversationId st
      /\ conversations (setCurrentConversation response id st)
         = conversations st).
Proof.
  assert (Hloaded : (exists c, In c (conversations st) /\ Conversation.id c = id) ->
                    setCurrentConversation response id st
                    = set_currentConversationId (Some id) st).
  { intros Hex. apply find_hasId_Some_iff in Hex. destruct Hex as [c Hf].
    unfold setCurrentConversation. rewrite Hf. reflexivity. }
  assert (Hnot : (forall c, In c (conversations st) -> Conversation.id c <> id) ->
                 setCurrentConversation response id st
                 = loadConversation response id st).
  { intros Hno. unfold setCurrentConversation.
    destruct (find (hasId id) (conversations st)) as [c|] eqn:Hf;
      [|reflexivity].
    apply find_some in Hf. destruct Hf as [Hin Hc].
    apply hasId_true_iff in Hc. exfalso. exact (Hno c Hin Hc). }
  split; [exact Hloaded|]. split; [exact Hnot|]. split.
  - intros Hor.
    destruct (find (hasId id) (conversations st)) as [c0|] eqn:Hf.
    + assert (Hex : exists c, In c (conversations st) /\ Conversation.id c = id)
        by (apply find_hasId_Some_iff; exists c0; exact Hf).
      rewrite (Hloaded Hex). cbn. split; [reflexivity|]. split; [exact Hex|].
      reflexivity.
    + assert (Hno : forall c, In c (conversations st) -> Conversation.id c <> id).
      { intros c Hin Hc. apply find_hasId_None in Hf. apply Hf.
        unfold idsOf. apply in_map_iff. exists c. auto. }
      rewrite (Hnot Hno).
      destruct Hor as [[c [Hin Hc]] | [msgs [md Ht]]];
        [exfalso; exact (Hno c Hin Hc)|].
      rewrite (loadConversation_transcript _ _ _ _ _ Ht).
      unfold othersThan.
      cbn [conversations sessions currentConversationId set_isLoading
           set_currentConversationId set_conversations].
      split; [reflexivity|]. split.
      * exists (fromTranscript id msgs md). split; [|reflexivity].
        apply in_or_app. right. left. reflexivity.
      * rewrite filter_app, filter_twice. cbn [filter].
        rewrite hasId_fromTranscript. cbn [negb]. apply app_nil_r.
  - intros Hno Hnt. rewrite (Hnot Hno).
    destruct (loadConversation_no_transcript response id st Hnt) as [-> | ->];
      split; reflexivity.
Qed.


(** X8.  After a session has been deleted remotely, the next request
    does not resume it: the body [sendMessage] posts never carries its id,
    no conversation and no session summary has it, and deleting it again
    changes nothing. *)
Theorem deleteSession_forgets
        (sessionId content : jsstring) (st : ChatStore) :
  Payload.session_id (chatPayload content (deleteSession (Ok tt) sessionId st))
  <> Some sessionId
  /\ keyedCount sessionId (deleteSession (Ok tt) sessionId st) = 0%nat
  /\ ~ listed sessionId (deleteSession (Ok tt) sessionId st)
  /\ deleteSession (Ok tt) sessionId (deleteSession (Ok tt) sessionId st)
     = deleteSession (Ok tt) sessionId st.
Proof.
  split.
  { intros Hp. apply chatPayload_session_id_iff in Hp.
    destruct Hp as [Hcur _]. unfold deleteSession in Hcur. cbn in Hcur.
    destruct (sameId (currentConversationId st) sessionId) eqn:Hs;
      [discriminate|].
    apply sameId_true_iff in Hcur. congruence. }
  split.
  { unfold keyedCount, deleteSession. cbn.
    rewrite filter_of_complement. reflexivity. }
  split.
  { intros [s [Hin Hs]]. unfold deleteSession in Hin. cbn in Hin.
    apply filter_In in Hin. destruct Hin as [_ Hneg].
    apply negb_true_iff in Hneg. apply hasSessionId_true_iff in Hs.
    congruence. }
  unfold deleteSession. cbn. rewrite !filter_twice.
  destruct (sameId (currentConversationId st) sessionId) eqn:Hs.
  - cbn. reflexivity.
  - rewrite Hs. reflexivity.
Qed.

(** X9.  Changing the user id or starting a new conversation makes the
    next request start a fresh session: the body [sendMessage] posts then
    carries no session id, and after [setUserId] it carries the new user
    id.  [setUserId] keeps the session list of the previous user. *)
Theorem next_request_starts_fresh
        (now1 : Date) (rnd1 : N) (now2 : Date) (rnd2 : N)
        (id content : jsstring) (response : http ChatResponse.t)
        (sessionsResponse : http SessionsResponse.t) (st : ChatStore) :
  fst (sendMessage now1 rnd1 now2 rnd2 content response sessionsResponse
                   (setUserId id st))
  = Payload.mk content id None
  /\ fst (sendMessage now1 rnd1 now2 rnd2 content response sessionsResponse
                      (startNewConversation st))
     = Payload.mk content (userId st) None
  /\ sessions (setUserId id st) = sessions st
  /\ conversations (setUserId id st) = []
  /\ conversations (startNewConversation st) = conversations st.
Proof.
  rewrite !sendMessage_payload. repeat split.
Qed.

(* ================================================================== *)
(** ** Further properties: appending messages *)
(* ================================================================== *)

Lemma option_eq_dec_jsstring (a b : option jsstring) : {a = b} + {a <> b}.
Proof. decide equality. apply (list_eq_dec N.eq_dec). Qed.

(** The three outcomes of an append, on the list of conversations. *)
Lemma addMessage_conversations now rnd content role (st : ChatStore) :
  (whenTruthy (currentConversationId st) = None
   /\ exists c, conversations (addMessage now rnd content role st)
                = c :: conversations st)
  \/ (exists cid,
         whenTruthy (currentConversationId st) = Some cid
         /\ In cid (conversationIds st)
         /\ conversations (addMessage now rnd content role st)
            = List.map
                (fun conv => if hasId cid conv
                             then withMessage now content role conv else conv)
                (conversations st))
  \/ (exists cid,
         whenTruthy (currentConversationId st) = Some cid
         /\ ~ In cid (conversationIds st)
         /\ exists c, conversations (addMessage now rnd content role st)
                      = c :: conversations st).
Proof.
  unfold addMessage.
  destruct (whenTruthy (currentConversationId st)) as [cid|] eqn:Hw.
  - right. destruct (find (hasId cid) (conversations st)) as [c|] eqn:Hf.
    + left. exists cid. split; [reflexivity|]. split; [|reflexivity].
      apply find_some in Hf. destruct Hf as [Hin Hc].
      apply hasId_true_iff in Hc. unfold conversationIds, idsOf.
      apply in_map_iff. exists c. auto.
    + right. exists cid. split; [reflexivity|]. split.
      * apply find_hasId_None. exact Hf.
      * eexists. reflexivity.
  - left. split; [reflexivity|]. eexists. reflexivity.
Qed.

Lemma addMessage_counterpart now rnd content role (st : ChatStore)
      (c : Conversation.t) :
  In c (conversations st) ->
  (whenTruthy (currentConversationId st) = Some (Conversation.id c) ->
   In (withMessage now content role c)
      (conversations (addMessage now rnd content role st)))
  /\ (whenTruthy (currentConversationId st) <> Some (Conversation.id c) ->
      In c (conversations (addMessage now rnd content role st))).
Proof.
  intros Hin.
  destruct (addMessage_conversations now rnd content role st)
    as [[Hw [x ->]] | [[cid [Hw [Hcid ->]]] | [cid [Hw [Hcid [x ->]]]]]].
  - split; [congruence | intros _; right; exact Hin].
  - split.
    + intros Hc. assert (cid = Conversation.id c) by congruence. subst cid.
      apply in_map_iff. exists c. split; [|exact Hin].
      rewrite (proj2 (hasId_true_iff _ _) eq_refl). reflexivity.
    + intros Hc. apply in_map_iff. exists c. split; [|exact Hin].
      destruct (hasId cid c) eqn:Hh; [|reflexivity].
      apply hasId_true_iff in Hh. congruence.
  - split.
    + intros Hc. assert (cid = Conversation.id c) by congruence. subst cid.
      exfalso. apply Hcid. unfold conversationIds, idsOf.
      apply in_map. exact Hin.
    + intros _. right. exact Hin.
Qed.

Lemma addMessage_length now rnd content role (st : ChatStore) :
  (List.length (conversations st)
   <= List.length (conversations (addMessage now rnd content role st))
   <= S (List.length (conversations st)))%nat
  /\ ((exists cid, currentConversationId st = Some cid /\ truthy cid = true
                   /\ In cid (conversationIds st)) ->
      List.length (conversations (addMessage now rnd content role st))
      = List.length (conversations st)).
Proof.
  destruct (addMessage_conversations now rnd content role st)
    as [[Hw [x Hx]] | [[cid [Hw [Hcid Hx]]] | [cid [Hw [Hcid [x Hx]]]]]];
    rewrite Hx.
  - split; [cbn; lia|]. intros [cid [Hc [Ht _]]].
    rewrite Hc in Hw. cbn in Hw. rewrite Ht in Hw. discriminate.
  - rewrite length_map. split; [lia | reflexivity].
  - split; [cbn; lia|]. intros [cid' [Hc [Ht Hin]]].
    assert (Hw' : whenTruthy (currentConversationId st) = Some cid')
      by (apply whenTruthy_Some; auto).
    assert (cid = cid') by congruence. subst. contradiction.
Qed.


(** X11.  The title of the conversation an append extends: an assistant
    message never changes it; a user message changes it only when the
    conversation had no message or carried one of the placeholder titles
    ["New conversation"] and ["New Chat"], and then to the title derived
    from that message. *)
Theorem addMessage_title_rule
        (now : Date) (rnd : N) (content : jsstring) (role : Role)
        (st : ChatStore) (c : Conversation.t) :
  In c (conversations st) ->
  whenTruthy (currentConversationId st) = Some (Conversation.id c) ->
  exists c',
    In c' (conversations (addMessage now rnd content role st))
    /\ Conversation.id c' = Conversation.id c
    /\ Conversation.messages c'
       = Conversation.messages c ++ [Message.mk role content now]
    /\ (role = assistant -> Conversation.title c' = Conversation.title c)
    /\ (Conversation.messages c <> [] ->
        isGenericTitle (Conversation.title c) = false ->
        Conversation.title c' = Conversation.title c)
    /\ (role = user ->
        Conversation.messages c = []
        \/ isGenericTitle (Conversation.title c) = true ->
        Conversation.title c' = createTitleFromContent content).
Proof.
  intros Hin Hw.
  exists (withMessage now content role c).
  split; [apply (addMessage_counterpart now rnd content role st c Hin); exact Hw|].
  split; [reflexivity|]. split; [reflexivity|].
  unfold withMessage, isGenericTitle. cbn [Conversation.title].
  split; [intros ->; reflexivity|]. split.
  - intros Hne Hgen.
    destruct (Conversation.messages c) as [|m ms]; [contradiction|].
    apply orb_false_elim in Hgen. destruct Hgen as [H1 H2].
    rewrite H1, H2. cbn. rewrite andb_false_r. reflexivity.
  - intros -> Hor. cbn [isUser andb].
    destruct Hor as [Hnil | Hgen].
    + rewrite Hnil. reflexivity.
    + apply orb_true_iff in Hgen. destruct Hgen as [H | H]; rewrite H.
      * rewrite orb_true_r. reflexivity.
      * rewrite orb_true_r. reflexivity.
Qed.

Lemma addMessage_title_rule_witness :
  exists c',
    In c' (conversations
             (addMessage (DateNow 3) 9 shortContent user twoLoaded))
    /\ Conversation.id c' = sessionB
    /\ Conversation.title c' = lit "Quarterly numbers".
Proof.
  destruct (addMessage_title_rule (DateNow 3) 9 shortContent user twoLoaded
              (fromTranscript sessionB
                 [ApiMessage.mk user (lit "Hello");
                  ApiMessage.mk assistant (lit "Hi")]
                 (Metadata.mk (lit "2025-01-01T00:00:00Z")
                              (lit "2025-01-02T00:00:00Z") 2
                              (lit "Quarterly numbers"))))
    as [c' [Hin [Hid [_ [_ [Hkeep _]]]]]].
  - right. left. reflexivity.
  - reflexivity.
  - exists c'. split; [exact Hin|]. split; [exact Hid|].
    apply Hkeep; [discriminate | reflexivity].
Defined.

(** X12.  When the truthy current id keys no conversation, an append puts
    a new conversation with that id and the single message in front of
    the list and leaves the current id alone.  If a session summary with
    that id is listed, the first such summary gives the creation date, and
    the title when its title is not empty; otherwise the title comes from
    the message (a user message) or is ["New conversation"], and the
    creation date is the clock when no summary is listed. *)
Theorem addMessage_materialises
        (now : Date) (rnd : N) (content : jsstring) (role : Role)
        (st : ChatStore) (cid : jsstring) :
  currentConversationId st = Some cid ->
  truthy cid = true ->
  (forall c, In c (conversations st) -> Conversation.id c <> cid) ->
  exists c,
    conversations (addMessage now rnd content role st)
    = c :: conversations st
    /\ currentConversationId (addMessage now rnd content role st) = Some cid
    /\ Conversation.id c = cid
    /\ Conversation.messages c = [Message.mk role content now]
    /\ Conversation.lastUpdatedAt c = now
    /\ (forall s,
           find (hasSessionId cid) (sessions st) = Some s ->
           Conversation.createdAt c = DateOf (Session.created_at s)
           /\ (truthy (Session.title s) = true ->
               Conversation.title c = Session.title s)
           /\ (Session.title s = [] ->
               Conversation.title c = titleFor role content))
    /\ (~ listed cid st ->
        Conversation.createdAt c = now
        /\ Conversation.title c = titleFor role content).
Proof.
  intros Hcur Ht Hno. unfold addMessage. rewrite Hcur. cbn [whenTruthy].
  rewrite Ht.
  assert (Hf : find (hasId cid) (conversations st) = None).
  { apply find_hasId_None. unfold idsOf. rewrite in_map_iff.
    intros [c [Hc Hin]]. exact (Hno c Hin Hc). }
  rewrite Hf. eexists. split; [reflexivity|].
  cbn [currentConversationId set_conversations Conversation.id
       Conversation.messages Conversation.lastUpdatedAt
       Conversation.createdAt Conversation.title].
  split; [exact Hcur|]. split; [reflexivity|]. split; [reflexivity|].
  split; [reflexivity|]. split.
  - intros s Hs. rewrite Hs. split; [reflexivity|]. split.
    + intros Htitle. rewrite Htitle. reflexivity.
    + intros Htitle. rewrite Htitle. reflexivity.
  - intros Hnl.
    destruct (find (hasSessionId cid) (sessions st)) as [s|] eqn:Hs.
    + exfalso. apply Hnl. apply find_some in Hs. destruct Hs as [Hin Hh].
      exists s. split; [exact Hin|]. apply hasSessionId_true_iff. exact Hh.
    + split; reflexivity.
Qed.

Lemma addMessage_materialises_witness :
  exists c,
    conversations (addMessage (DateNow 3) 9 shortContent user onSessionA)
    = c :: conversations onSessionA
    /\ Conversation.id c = sessionA
    /\ Conversation.title c = lit "Quarterly numbers".
Proof.
  destruct (addMessage_materialises (DateNow 3) 9 shortContent user
              onSessionA sessionA eq_refl eq_refl)
    as [c [Hc [_ [Hid [_ [_ [Hs _]]]]]]].
  - intros c [].
  - exists c. split; [exact Hc|]. split; [exact Hid|].
    apply (Hs (summaryOf sessionA) eq_refl). reflexivity.
Defined.

(* ================================================================== *)
(** ** Further properties: the round trip of sendMessage *)
(* ================================================================== *)

(** X13.  A response whose generation is empty is handled like a failed
    request: no assistant message is appended, the session id of the
    response is not taken up (no re-keying, no new current id) and the
    session list is not refreshed. *)
Theorem sendMessage_empty_generation
        (now1 : Date) (rnd1 : N) (now2 : Date) (rnd2 : N)
        (content : jsstring) (data : ChatResponse.t)
        (sessionsResponse : http SessionsResponse.t) (st : ChatStore) :
  ChatResponse.generation data = [] ->
  sendMessage now1 rnd1 now2 rnd2 content (Ok data) sessionsResponse st
  = sendMessage now1 rnd1 now2 rnd2 content Failed sessionsResponse st
  /\ snd (sendMessage now1 rnd1 now2 rnd2 content (Ok data)
                      sessionsResponse st)
     = set_isLoading false (addMessage now1 rnd1 content user st).
Proof.
  intros Hg. unfold sendMessage. rewrite Hg. cbn [truthy snd].
  split; [reflexivity|].
  rewrite addMessage_set_isLoading. reflexivity.
Qed.

Lemma sendMessage_empty_generation_witness :
  currentConversationId
    (snd (sendMessage (DateNow 1) 7 (DateNow 2) 8 shortContent
                      (Ok (ChatResponse.mk [] sessionC []))
                      (refreshed sessionC) emptyStore))
  = Some (uuidv4 7).
Proof.
  rewrite (proj2 (sendMessage_empty_generation
                    (DateNow 1) 7 (DateNow 2) 8 shortContent
                    (ChatResponse.mk [] sessionC []) (refreshed sessionC)
                    emptyStore eq_refl)).
  reflexivity.
Defined.

(** X14.  When the response names the session that was current on entry,
    nothing is re-keyed and the session list is not refreshed, whatever
    the refresh would have answered: the store is the one the two appends
    leave, with the loading flag cleared, and every conversation keyed by
    the current id has the user message and the reply after its former
    messages. *)
Theorem sendMessage_same_session
        (now1 : Date) (rnd1 : N) (now2 : Date) (rnd2 : N)
        (content : jsstring) (data : ChatResponse.t)
        (sessionsResponse : http SessionsResponse.t)
        (st : ChatStore) (cid : jsstring) :
  currentConversationId st = Some cid ->
  truthy cid = true ->
  truthy (ChatResponse.generation data) = true ->
  ChatResponse.session_id data = cid ->
  snd (sendMessage now1 rnd1 now2 rnd2 content (Ok data) sessionsResponse st)
  = set_isLoading false
      (addMessage now2 rnd2 (ChatResponse.generation data) assistant
         (addMessage now1 rnd1 content user st))
  /\ sessions (snd (sendMessage now1 rnd1 now2 rnd2 content (Ok data)
                                sessionsResponse st))
     = sessions st
  /\ currentConversationId
       (snd (sendMessage now1 rnd1 now2 rnd2 content (Ok data)
                         sessionsResponse st))
     = Some cid
  /\ forall c0,
      In c0 (conversations st) -> Conversation.id c0 = cid ->
      exists c,
        In c (conversations
                (snd (sendMessage now1 rnd1 now2 rnd2 content (Ok data)
                                  sessionsResponse st)))
        /\ Conversation.id c = cid
        /\ Conversation.messages c
           = Conversation.messages c0
             ++ [Message.mk user content now1;
                 Message.mk assistant (ChatResponse.generation data) now2].
Proof.
  intros Hcur Ht Hg Hs.
  assert (Heq : snd (sendMessage now1 rnd1 now2 rnd2 content (Ok data)
                                 sessionsResponse st)
                = set_isLoading false
                    (addMessage now2 rnd2 (ChatResponse.generation data)
                       assistant (addMessage now1 rnd1 content user st))).
  { unfold sendMessage. cbn [snd]. rewrite Hg, Hs, Hcur.
    cbn [whenTruthy sameId]. rewrite Ht, streq_refl.
    cbn [negb orb]. rewrite andb_false_r.
    rewrite !addMessage_set_isLoading. reflexivity. }
  rewrite Heq.
  destruct (addMessage_on_current now1 rnd1 content user st cid Hcur Ht)
    as [Hcur1 Hext1].
  destruct (addMessage_on_current now2 rnd2 (ChatResponse.generation data)
              assistant _ cid Hcur1 Ht) as [Hcur2 Hext2].
  split; [reflexivity|]. split.
  { cbn [sessions set_isLoading]. rewrite !addMessage_sessions. reflexivity. }
  split; [exact Hcur2|].
  intros c0 Hin Hc0.
  destruct (Hext1 c0 Hin Hc0) as [c1 [Hin1 [Hid1 [Hm1 _]]]].
  destruct (Hext2 c1 Hin1 Hid1) as [c2 [Hin2 [Hid2 [Hm2 _]]]].
  exists c2. split; [exact Hin2|]. split; [exact Hid2|].
  rewrite Hm2, Hm1, <- app_assoc. reflexivity.
Qed.

Lemma sendMessage_same_session_witness :
  sessions
    (snd (sendMessage (DateNow 1) 7 (DateNow 2) 8 shortContent
                      (Ok (replyWith sessionB)) (refreshed sessionC)
                      twoLoaded))
  = sessions twoLoaded.
Proof.
  apply (sendMessage_same_session (DateNow 1) 7 (DateNow 2) 8 shortContent
           (replyWith sessionB) (refreshed sessionC) twoLoaded sessionB);
    reflexivity.
Defined.

(** The conversations [sendMessage] leaves are those after the first
    append, or those after both appends, possibly re-keyed. *)
Lemma sendMessage_conversations now1 rnd1 now2 rnd2 content response
      sessionsResponse (st : ChatStore) :
  conversations
    (snd (sendMessage now1 rnd1 now2 rnd2 content response
                      sessionsResponse st))
  = conversations (addMessage now1 rnd1 content user st)
  \/ exists data,
      response = Ok data
      /\ (conversations
            (snd (sendMessage now1 rnd1 now2 rnd2 content response
                              sessionsResponse st))
          = conversations
              (addMessage now2 rnd2 (ChatResponse.generation data) assistant
                 (addMessage now1 rnd1 content user st))
          \/ exists cid,
              conversations
                (snd (sendMessage now1 rnd1 now2 rnd2 content response
                                  sessionsResponse st))
              = List.map (rekey cid (ChatResponse.session_id data))
                  (conversations
                     (addMessage now2 rnd2 (ChatResponse.generation data)
                        assistant (addMessage now1 rnd1 content user st)))).
Proof.
  unfold sendMessage. rewrite addMessage_set_isLoading.
  destruct response as [|data]; [left; reflexivity|].
  cbn [snd]. destruct (truthy (ChatResponse.generation data));
    [|left; reflexivity].
  right. exists data. split; [reflexivity|].
  rewrite addMessage_set_isLoading.
  match goal with
  | |- context [if ?b then _ else _] => destruct b
  end; [|left; reflexivity].
  destruct (whenTruthy (currentConversationId st)) as [cid|].
  - right. exists cid.
    match goal with
    | |- context [loadSessions ?r ?s] =>
        change (conversations (loadSessions r s)
                = List.map (rekey cid (ChatResponse.session_id data))
                    (conversations
                       (addMessage now2 rnd2 (ChatResponse.generation data)
                          assistant (addMessage now1 rnd1 content user st))));
        rewrite (proj1 (loadSessions_conversations r s))
    end.
    reflexivity.
  - left.
    match goal with
    | |- context [loadSessions ?r ?s] =>
        change (conversations (loadSessions r s)
                = conversations
                    (addMessage now2 rnd2 (ChatResponse.generation data)
                       assistant (addMessage now1 rnd1 content user st)));
        rewrite (proj1 (loadSessions_conversations r s))
    end.
    reflexivity.
Qed.

Lemma addMessage_extends now rnd content role (st : ChatStore)
      (c : Conversation.t) :
  In c (conversations st) ->
  exists c', In c' (conversations (addMessage now rnd content role st))
             /\ extendedBy 1 c c'.
Proof.
  intros Hin.
  destruct (addMessage_counterpart now rnd content role st c Hin)
    as [Hyes Hno].
  destruct (option_eq_dec_jsstring
              (whenTruthy (currentConversationId st))
              (Some (Conversation.id c))) as [He | He].
  - exists (withMessage now content role c). split; [exact (Hyes He)|].
    exists [Message.mk role content now]. repeat split. cbn. lia.
  - exists c. split; [exact (Hno He)|].
    exists []. rewrite app_nil_r. repeat split. cbn. lia.
Qed.

Lemma extendedBy_trans (n m : nat) (a b c : Conversation.t) :
  extendedBy n a b -> extendedBy m b c -> extendedBy (n + m) a c.
Proof.
  intros [s1 [H1 [L1 D1]]] [s2 [H2 [L2 D2]]].
  exists (s1 ++ s2). rewrite H2, H1, <- app_assoc, length_app.
  split; [reflexivity|]. split; [lia | congruence].
Qed.

(** X15.  Whatever the chat request and the session refresh answer,
    [sendMessage] loses no conversation and no message: every conversation
    of the store has a counterpart afterwards whose messages are the former
    ones followed by at most two more, with the same creation date; the
    list has the same number of conversations or one more. *)
Theorem sendMessage_loses_nothing
        (now1 : Date) (rnd1 : N) (now2 : Date) (rnd2 : N)
        (content : jsstring) (response : http ChatResponse.t)
        (sessionsResponse : http SessionsResponse.t) (st : ChatStore) :
  (forall c,
      In c (conversations st) ->
      exists c',
        In c' (conversations
                 (snd (sendMessage now1 rnd1 now2 rnd2 content response
                                   sessionsResponse st)))
        /\ extendedBy 2 c c')
  /\ (List.length (conversations st)
      <= List.length
           (conversations
              (snd (sendMessage now1 rnd1 now2 rnd2 content response
                                sessionsResponse st)))
      <= S (List.length (conversations st)))%nat.
Proof.
  pose proof (addMessage_length now1 rnd1 content user st) as [Hlen1 _].
  assert (Hlen2 : forall g,
             List.length (conversations
                            (addMessage now2 rnd2 g assistant
                               (addMessage now1 rnd1 content user st)))
             = List.length (conversations
                              (addMessage now1 rnd1 content user st))).
  { intros g. apply addMessage_length.
    destruct (addMessage_current_last now1 rnd1 content user st)
      as [cid [c [before [Hcur [Ht [Hf _]]]]]].
    exists cid. split; [exact Hcur|]. split; [exact Ht|].
    apply find_some in Hf. destruct Hf as [Hin Hc].
    apply hasId_true_iff in Hc. unfold conversationIds, idsOf.
    apply in_map_iff. exists c. auto. }
  destruct (sendMessage_conversations now1 rnd1 now2 rnd2 content response
              sessionsResponse st)
    as [-> | [data [_ [-> | [cid ->]]]]].
  - split; [|exact Hlen1]. intros c Hin.
    destruct (addMessage_extends now1 rnd1 content user st c Hin)
      as [c1 [Hin1 [s [Hm [Hl Hd]]]]].
    exists c1. split; [exact Hin1|]. exists s. repeat split; auto.
  - split; [|rewrite Hlen2; exact Hlen1]. intros c Hin.
    destruct (addMessage_extends now1 rnd1 content user st c Hin)
      as [c1 [Hin1 He1]].
    destruct (addMessage_extends now2 rnd2 (ChatResponse.generation data)
                assistant _ c1 Hin1) as [c2 [Hin2 He2]].
    exists c2. split; [exact Hin2|].
    exact (extendedBy_trans 1 1 c c1 c2 He1 He2).
  - split; [|rewrite length_map, Hlen2; exact Hlen1]. intros c Hin.
    destruct (addMessage_extends now1 rnd1 content user st c Hin)
      as [c1 [Hin1 He1]].
    destruct (addMessage_extends now2 rnd2 (ChatResponse.generation data)
                assistant _ c1 Hin1) as [c2 [Hin2 He2]].
    exists (rekey cid (ChatResponse.session_id data) c2).
    split; [apply in_map; exact Hin2|].
    destruct (extendedBy_trans 1 1 c c1 c2 He1 He2) as [s [Hm [Hl Hd]]].
    destruct (rekey_id cid (ChatResponse.session_id data) c2)
      as [_ [_ [Hm' [_ Hd']]]].
    exists s. rewrite Hm', Hd'. auto.
Qed.

(* ================================================================== *)
(** ** Further properties: the file list *)
(* ================================================================== *)

Lemma store_eta (st : ChatStore) : set_files (files st) st = st.
Proof. destruct st; reflexivity. Qed.

Lemma filter_none {A : Type} (f : A -> bool) (l : list A) :
  (forall x, In x l -> f x = false) -> filter f l = [].
Proof.
  induction l as [|x l IH]; intros H; [reflexivity|]. simpl.
  rewrite (H x (or_introl eq_refl)). apply IH.
  intros y Hy. apply H. right. exact Hy.
Qed.

Lemma file_id_fresh (id : jsstring) (st : ChatStore) (f : UploadedFile.t) :
  ~ In id (fileIds st) -> In f (files st) ->
  streq (UploadedFile.id f) id = false.
Proof.
  intros Hfresh Hin. apply streq_false_iff. intros He. apply Hfresh.
  unfold fileIds. apply in_map_iff. exists f. auto.
Qed.

(** X16.  [removeFile] removes every entry with the id and keeps every
    other entry; removing a file right after adding it, when no entry had
    its id, gives back the store as it was.  Neither operation touches the
    conversations. *)
Theorem removeFile_after_addFile
        (id : jsstring) (file : UploadedFile.t) (st : ChatStore) :
  ~ In id (fileIds (removeFile id st))
  /\ (forall f, In f (files (removeFile id st))
                <-> In f (files st) /\ UploadedFile.id f <> id)
  /\ (~ In (UploadedFile.id file) (fileIds st) ->
      removeFile (UploadedFile.id file) (addFile file st) = st)
  /\ conversations (removeFile id (addFile file st)) = conversations st.
Proof.
  split.
  { unfold fileIds, removeFile. cbn. rewrite in_map_iff.
    intros [f [Hf Hin]]. apply filter_In in Hin. destruct Hin as [_ Hn].
    apply negb_true_iff, streq_false_iff in Hn. contradiction. }
  split.
  { intros f. unfold removeFile. cbn.
    rewrite filter_In, negb_true_iff, streq_false_iff. tauto. }
  split; [|reflexivity].
  intros Hfresh.
  transitivity
    (set_files
       (filter (fun f => negb (streq (UploadedFile.id f)
                                     (UploadedFile.id file)))
               (files st ++ [file]))
       st); [reflexivity|].
  rewrite filter_app. cbn [filter]. rewrite streq_refl. cbn [negb].
  rewrite app_nil_r.
  rewrite filter_all; [apply store_eta|].
  intros f Hin. apply negb_true_iff. apply (file_id_fresh _ st); assumption.
Qed.


(* ================================================================== *)
(** ** Further properties: the upload page *)
(* ================================================================== *)

Lemma finalEntry_id (item : File.t * N * UploadOutcome) :
  UploadedFile.id (finalEntry item) = mintedId item.
Proof.
  destruct item as [[file rnd] outcome]. unfold finalEntry, mintedId.
  cbn [fst snd].
  destruct (maxUploadSize <? File.size file); [reflexivity|].
  destruct outcome; reflexivity.
Qed.

Lemma uploadOne_files (file : File.t) (rnd : N) (outcome : UploadOutcome)
      (st : ChatStore) :
  ~ In (uuidv4 rnd) (fileIds st) ->
  files (snd (uploadOne file rnd outcome st))
  = files st ++ [finalEntry (file, rnd, outcome)]
  /\ fst (uploadOne file rnd outcome st)
     = (if fitsLimit (file, rnd, outcome) then [file] else [])
  /\ conversations (snd (uploadOne file rnd outcome st)) = conversations st.
Proof.
  intros Hfresh.
  assert (Hmap : forall u,
             List.map
               (fun f =>
                  if streq (UploadedFile.id f) (uuidv4 rnd) then
                    UploadedFile.mk
                      (orElse (FileUpdates.id u) (UploadedFile.id f))
                      (orElse (FileUpdates.name u) (UploadedFile.name f))
                      (orElse (FileUpdates.size u) (UploadedFile.size f))
                      (orElse (FileUpdates.status u) (UploadedFile.status f))
                      (orElse (FileUpdates.s3Key u) (UploadedFile.s3Key f))
                      (orElse (FileUpdates.error u) (UploadedFile.error f))
                  else f)
               (files st)
             = files st).
  { intros u. rewrite <- (map_id (files st)) at 2. apply map_ext_in.
    intros f Hin. rewrite (file_id_fresh _ st f Hfresh Hin). reflexivity. }
  unfold uploadOne, finalEntry, fitsLimit. cbn [fst snd].
  destruct (maxUploadSize <? File.size file).
  - cbn [fst snd negb]. unfold updateFile, addFile.
    cbn [files set_files conversations]. rewrite map_app, Hmap.
    cbn [List.map UploadedFile.id]. rewrite streq_refl. repeat split.
  - cbn [negb]. destruct outcome as [key | message];
      cbn [fst snd]; unfold updateFile, addFile;
      cbn [files set_files conversations]; rewrite map_app, Hmap;
      cbn [List.map UploadedFile.id]; rewrite streq_refl; repeat split.
Qed.

Lemma uploadEach_files (items : list (File.t * N * UploadOutcome)) :
  forall st,
    NoDup (List.map mintedId items) ->
    (forall item, In item items -> ~ In (mintedId item) (fileIds st)) ->
    files (snd (uploadEach items st))
    = files st ++ List.map finalEntry items
    /\ fst (uploadEach items st)
       = List.map (fun item => fst (fst item)) (filter fitsLimit items)
    /\ conversations (snd (uploadEach items st)) = conversations st.
Proof.
  induction items as [|[[file rnd] outcome] items IH]; intros st Hnd Hfresh.
  - cbn. rewrite app_nil_r. repeat split.
  - inversion Hnd as [|x l Hnotin Hnd']; subst.
    assert (Hf : ~ In (uuidv4 rnd) (fileIds st))
      by (apply (Hfresh (file, rnd, outcome)); left; reflexivity).
    destruct (uploadOne_files file rnd outcome st Hf) as [Hfiles [Hsent Hconv]].
    cbn [uploadEach fst snd].
    destruct (IH (snd (uploadOne file rnd outcome st)) Hnd') as [H1 [H2 H3]].
    { intros item Hin. unfold fileIds. rewrite Hfiles, map_app, in_app_iff.
      intros [Hold | [Hnew | []]].
      - exact (Hfresh item (or_intror Hin) Hold).
      - apply Hnotin. apply in_map_iff. exists item. split; [|exact Hin].
        rewrite finalEntry_id in Hnew. symmetry. exact Hnew. }
    rewrite H1, H2, H3, Hfiles, Hsent, Hconv, <- app_assoc.
    split; [reflexivity|]. split; [|reflexivity].
    cbn [filter]. destruct (fitsLimit (file, rnd, outcome)); reflexivity.
Qed.

(** X18.  [handleFileUpload], when the ids it draws are distinct and not
    in use: each file ends as one entry after the former ones, in order;
    exactly the files of at most 10 MiB are handed to [uploadToS3]; no new
    entry is left [uploading]: it is [uploaded] with its key or [error]
    with a message, and a file above the limit is an [error] entry.  A null
    file list changes nothing. *)
Theorem handleFileUpload_settles
        (items : list (File.t * N * UploadOutcome)) (st : ChatStore) :
  NoDup (List.map mintedId items) ->
  (forall item, In item items -> ~ In (mintedId item) (fileIds st)) ->
  files (snd (handleFileUpload (Some items) st))
  = files st ++ List.map finalEntry items
  /\ fst (handleFileUpload (Some items) st)
     = List.map (fun item => fst (fst item)) (filter fitsLimit items)
  /\ (forall f,
         In f (files (snd (handleFileUpload (Some items) st))) ->
         In f (files st)
         \/ (UploadedFile.status f = UploadedFile.uploaded
             /\ UploadedFile.s3Key f <> None)
         \/ (UploadedFile.status f = UploadedFile.error_
             /\ UploadedFile.error f <> None))
  /\ (forall item,
         In item items -> fitsLimit item = false ->
         UploadedFile.status (finalEntry item) = UploadedFile.error_)
  /\ handleFileUpload None st = ([], st).
Proof.
  intros Hnd Hfresh. cbn [handleFileUpload].
  destruct (uploadEach_files items st Hnd Hfresh) as [Hfiles [Hsent _]].
  split; [exact Hfiles|]. split; [exact Hsent|]. split.
  - intros f Hin. rewrite Hfiles in Hin. apply in_app_iff in Hin.
    destruct Hin as [Hold | Hnew]; [left; exact Hold|]. right.
    apply in_map_iff in Hnew. destruct Hnew as [[[file rnd] outcome] [<- _]].
    unfold finalEntry.
    destruct (maxUploadSize <? File.size file);
      [right; split; [reflexivity | discriminate]|].
    destruct outcome;
      [left | right]; (split; [reflexivity | discriminate]).
  - split; [|reflexivity].
    intros [[file rnd] outcome] _ Hfit. unfold fitsLimit in Hfit.
    cbn [fst] in Hfit. apply negb_false_iff in Hfit.
    unfold finalEntry. rewrite Hfit. reflexivity.
Qed.

Lemma handleFileUpload_settles_witness :
  List.map UploadedFile.status
    (files (snd (handleFileUpload
                   (Some [(smallFile, 1%N, UploadResolved (lit "uploads/1-report.pdf"));
                          (largeFile, 2%N, UploadResolved (lit "uploads/2-scan.png"))])
                   emptyStore)))
  = [UploadedFile.uploaded; UploadedFile.error_]
  /\ fst (handleFileUpload
            (Some [(smallFile, 1%N, UploadResolved (lit "uploads/1-report.pdf"));
                   (largeFile, 2%N, UploadResolved (lit "uploads/2-scan.png"))])
            emptyStore)
     = [smallFile].
Proof.
  destruct (handleFileUpload_settles
              [(smallFile, 1%N, UploadResolved (lit "uploads/1-report.pdf"));
               (largeFile, 2%N, UploadResolved (lit "uploads/2-scan.png"))]
              emptyStore) as [Hfiles [Hsent _]].
  - repeat constructor; cbn; intuition discriminate.
  - intros item _ [].
  - rewrite Hfiles, Hsent. split; reflexivity.
Defined.

(* ================================================================== *)
(** ** Further properties: the chat page *)
(* ================================================================== *)

Lemma trimStart_nil_iff (s : jsstring) :
  trimStart s = [] <-> forallb isWhiteSpace s = true.
Proof.
  induction s as [|c s IH]; simpl; [tauto|].
  destruct (isWhiteSpace c); [exact IH|].
  split; discriminate.
Qed.

Lemma trimStart_head (s : jsstring) (c : N) (t : jsstring) :
  trimStart s = c :: t -> isWhiteSpace c = false.
Proof.
  induction s as [|x s IH]; simpl; [discriminate|].
  destruct (isWhiteSpace x) eqn:Hx; [exact IH|].
  intros H. inversion H; subst. exact Hx.
Qed.

Lemma trim_nil_iff (s : jsstring) :
  trim s = [] <-> forallb isWhiteSpace s = true.
Proof.
  unfold trim, trimEnd. split.
  - intros H.
    assert (Ht : trimStart (rev (trimStart s)) = []).
    { destruct (trimStart (rev (trimStart s))); [reflexivity|].
      apply (f_equal (@List.length N)) in H. rewrite length_rev in H.
      discriminate. }
    apply trimStart_nil_iff in Ht.
    destruct (trimStart s) as [|c t] eqn:Hs; [apply trimStart_nil_iff; exact Hs|].
    exfalso. pose proof (trimStart_head s c t Hs) as Hc.
    rewrite forallb_forall in Ht.
    rewrite (Ht c) in Hc; [discriminate|].
    apply in_rev. rewrite rev_involutive. left. reflexivity.
  - intros H. apply trimStart_nil_iff in H. rewrite H. reflexivity.
Qed.

(** X19.  [handleSubmit] sends nothing, and leaves the store as it is,
    exactly when every character of the message is white space (the empty
    message included).  Otherwise it is [sendMessage] on the message as
    typed: the question posted is the message, not its trimmed form. *)
Theorem handleSubmit_guard
        (now1 : Date) (rnd1 : N) (now2 : Date) (rnd2 : N)
        (message : jsstring) (response : http ChatResponse.t)
        (sessionsResponse : http SessionsResponse.t) (st : ChatStore) :
  (fst (handleSubmit now1 rnd1 now2 rnd2 message response
                     sessionsResponse st) = None
   <-> forallb isWhiteSpace message = true)
  /\ (forallb isWhiteSpace message = true ->
      handleSubmit now1 rnd1 now2 rnd2 message response sessionsResponse st
      = (None, st))
  /\ (forallb isWhiteSpace message = false ->
      exists payload,
        handleSubmit now1 rnd1 now2 rnd2 message response sessionsResponse st
        = (Some payload,
           snd (sendMessage now1 rnd1 now2 rnd2 message response
                            sessionsResponse st))
        /\ Payload.question payload = message).
Proof.
  unfold handleSubmit.
  destruct (truthy (trim message)) eqn:Ht; cbn [negb fst].
  - assert (Hw : forallb isWhiteSpace message = false).
    { destruct (forallb isWhiteSpace message) eqn:Hf; [|reflexivity].
      apply trim_nil_iff in Hf. rewrite Hf in Ht. discriminate. }
    rewrite Hw. split; [split; discriminate|]. split; [discriminate|].
    intros _. eexists. split; [reflexivity|].
    rewrite sendMessage_payload. reflexivity.
  - assert (Hw : forallb isWhiteSpace message = true).
    { apply trim_nil_iff. destruct (trim message); [reflexivity|discriminate]. }
    rewrite Hw. split; [tauto|]. split; [reflexivity | discriminate].
Qed.

Lemma toggleMonth_In (month m : jsstring) (prev : list jsstring) :
  In m (toggleMonth month prev)
  <-> (m = month /\ ~ In month prev) \/ (m <> month /\ In m prev).
Proof.
  unfold toggleMonth.
  destruct (existsb (fun x => streq x month) prev) eqn:He.
  - apply existsb_exists in He. destruct He as [x [Hin Hx]].
    apply streq_true_iff in Hx. subst x.
    rewrite filter_In, negb_true_iff, streq_false_iff. tauto.
  - assert (Hno : ~ In month prev).
    { intros Hin.
      assert (Ht : existsb (fun x => streq x month) prev = true)
        by (apply existsb_exists; exists month; split;
            [exact Hin | apply streq_refl]).
      congruence. }
    rewrite in_app_iff. cbn [In].
    destruct (list_eq_dec N.eq_dec m month) as [->|Hne]; [tauto|].
    split.
    + intros [H | [H | []]]; [tauto | congruence].
    + intros [[H _] | [_ H]]; [contradiction | tauto].
Qed.

(** X20.  [toggleMonth] flips whether the month is expanded and leaves
    every other month as it was; it never introduces a repeated entry, and
    expanding then collapsing a month gives back the list. *)
Theorem toggleMonth_flips (month : jsstring) (prev : list jsstring) :
  (In month (toggleMonth month prev) <-> ~ In month prev)
  /\ (forall m, m <> month -> (In m (toggleMonth month prev) <-> In m prev))
  /\ (NoDup prev -> NoDup (toggleMonth month prev))
  /\ (~ In month prev -> toggleMonth month (toggleMonth month prev) = prev).
Proof.
  split; [rewrite toggleMonth_In; tauto|].
  split; [intros m Hne; rewrite toggleMonth_In; tauto|].
  split.
  - intros Hnd. unfold toggleMonth.
    destruct (existsb (fun x => streq x month) prev) eqn:He.
    + apply NoDup_filter. exact Hnd.
    + apply NoDup_app; [exact Hnd | repeat constructor; intros [] |].
      intros a Hin [Ha | []]. subst a.
      assert (Ht : existsb (fun x => streq x month) prev = true)
        by (apply existsb_exists; exists month; split;
            [exact Hin | apply streq_refl]).
      congruence.
  - intros Hno. unfold toggleMonth.
    assert (He : existsb (fun x => streq x month) prev = false).
    { destruct (existsb (fun x => streq x month) prev) eqn:He;
        [|reflexivity].
      apply existsb_exists in He. destruct He as [x [Hin Hx]].
      apply streq_true_iff in Hx. subst x. contradiction. }
    rewrite He, existsb_app. cbn [existsb]. rewrite streq_refl, orb_true_r.
    rewrite filter_app. cbn [filter]. rewrite streq_refl. cbn [negb].
    rewrite app_nil_r. apply filter_all.
    intros x Hin. apply negb_true_iff, streq_false_iff.
    intros ->. contradiction.
Qed.

(* ================================================================== *)
(** ** Further properties: request addresses *)
(* ================================================================== *)

Lemma upperHexDigit_encoded (n : N) :
  isEncoded (upperHexDigit (N.land n 15)) = true.
Proof.
  apply (check_below (fun m => isEncoded (upperHexDigit m)) 16 eq_refl).
  apply (land_ones_below n 4).
Qed.

Lemma percentEncode_encoded (cp : N) :
  Forall (fun c => isEncoded c = true) (percentEncode cp).
Proof.
  assert (Hoct : forall b, Forall (fun c => isEncoded c = true)
                                  (percentOctet b)).
  { intros b. unfold percentOctet.
    repeat constructor; apply upperHexDigit_encoded. }
  unfold percentEncode.
  induction (utf8Octets cp) as [|b l IH]; cbn [flat_map]; [constructor|].
  apply Forall_app. split; [apply Hoct | exact IH].
Qed.

(** Induction for a function that consumes one or two elements. *)
Lemma one_or_two_ind (P : jsstring -> Prop) :
  P [] ->
  (forall c rest,
      P rest -> (forall d rest', rest = d :: rest' -> P rest') ->
      P (c :: rest)) ->
  forall s, P s.
Proof.
  intros Hnil Hcons s.
  assert (H : P s /\ (forall d rest', s = d :: rest' -> P rest')).
  { induction s as [|c rest [IH1 IH2]].
    - split; [exact Hnil | discriminate].
    - split; [apply Hcons; assumption|].
      intros d rest' He. inversion He; subst. exact IH1. }
  exact (proj1 H).
Qed.

Lemma prepend_Some (p : jsstring) (r : option jsstring) (e : jsstring) :
  prepend p r = Some e -> exists t, r = Some t /\ e = p ++ t.
Proof.
  destruct r as [t|]; [|discriminate].
  intros H. inversion H. exists t. auto.
Qed.

Lemma encodeURIComponent_encoded (s : jsstring) :
  forall e, encodeURIComponent s = Some e ->
            Forall (fun c => isEncoded c = true) e.
Proof.
  induction s as [|c rest IH1 IH2] using one_or_two_ind; intros e He.
  - inversion He. constructor.
  - cbn [encodeURIComponent] in He.
    destruct (isUriUnreserved c) eqn:Hu.
    + apply prepend_Some in He. destruct He as [t [Ht ->]].
      constructor; [unfold isEncoded; rewrite Hu; reflexivity | apply IH1; exact Ht].
    + destruct (isLowSurrogate c); [discriminate|].
      destruct (isHighSurrogate c).
      * destruct rest as [|d rest']; [discriminate|].
        destruct (isLowSurrogate d); [|discriminate].
        apply prepend_Some in He. destruct He as [t [Ht ->]].
        apply Forall_app. split; [apply percentEncode_encoded|].
        apply (IH2 d rest' eq_refl). exact Ht.
      * apply prepend_Some in He. destruct He as [t [Ht ->]].
        apply Forall_app. split; [apply percentEncode_encoded|].
        apply IH1. exact Ht.
Qed.

Lemma encodeURIComponent_defined (s : jsstring) :
  forallb (fun c => negb (isSurrogate c)) s = true ->
  exists e, encodeURIComponent s = Some e.
Proof.
  induction s as [|c rest IH]; intros Hs; [exists []; reflexivity|].
  cbn [forallb] in Hs. apply andb_true_iff in Hs. destruct Hs as [Hc Hrest].
  destruct (IH Hrest) as [e He].
  apply negb_true_iff in Hc. unfold isSurrogate in Hc.
  apply orb_false_elim in Hc. destruct Hc as [Hh Hl].
  cbn [encodeURIComponent]. rewrite He, Hh, Hl.
  destruct (isUriUnreserved c); eexists; reflexivity.
Qed.

Lemma encodeURIComponent_unreserved (s : jsstring) :
  forallb isUriUnreserved s = true -> encodeURIComponent s = Some s.
Proof.
  induction s as [|c rest IH]; intros Hs; [reflexivity|].
  cbn [forallb] in Hs. apply andb_true_iff in Hs. destruct Hs as [Hc Hrest].
  cbn [encodeURIComponent]. rewrite Hc, (IH Hrest). reflexivity.
Qed.

Lemma countChar_app (c : N) (a b : jsstring) :
  countChar c (a ++ b) = (countChar c a + countChar c b)%nat.
Proof. unfold countChar. rewrite filter_app, length_app. reflexivity. Qed.

Lemma countChar_encoded (c : N) (s : jsstring) :
  isEncoded c = false ->
  Forall (fun x => isEncoded x = true) s ->
  countChar c s = 0%nat.
Proof.
  intros Hc Hs. unfold countChar. rewrite filter_none; [reflexivity|].
  intros x Hin. rewrite Forall_forall in Hs.
  destruct (N.eqb_spec c x) as [->|]; [|reflexivity].
  rewrite (Hs x Hin) in Hc. discriminate.
Qed.

(** X21.  In development mode the address [getApiUrl] builds is
    [/api/proxy?host=H&endpoint=E] where [H] and [E], the encoded host and
    endpoint, hold only letters, digits, [- _ . ! ~ * ' ( )] and [%]:
    whatever the host and the endpoint contain, the address has exactly
    one [?], one [&], two [=] and no [#] or space, so neither can add or
    split a query parameter. *)
Theorem getApiUrl_dev_shape (host endpoint url : jsstring) :
  getApiUrl true host endpoint = Some url ->
  exists h e,
    encodeURIComponent host = Some h
    /\ encodeURIComponent endpoint = Some e
    /\ url = lit "/api/proxy?host=" ++ h ++ lit "&endpoint=" ++ e
    /\ Forall (fun c => isEncoded c = true) (h ++ e)
    /\ countChar 63 url = 1%nat
    /\ countChar 38 url = 1%nat
    /\ countChar 61 url = 2%nat
    /\ countChar 35 url = 0%nat
    /\ countChar 32 url = 0%nat.
Proof.
  unfold getApiUrl. intros H.
  destruct (encodeURIComponent host) as [h|] eqn:Hh; [|discriminate].
  destruct (encodeURIComponent endpoint) as [e|] eqn:He; [|discriminate].
  assert (Hurl : url = lit "/api/proxy?host=" ++ h ++ lit "&endpoint=" ++ e)
    by congruence.
  clear H. subst url. exists h, e.
  pose proof (encodeURIComponent_encoded host h Hh) as Fh.
  pose proof (encodeURIComponent_encoded endpoint e He) as Fe.
  split; [reflexivity|]. split; [reflexivity|]. split; [reflexivity|].
  split; [apply Forall_app; auto|].
  rewrite !countChar_app.
  repeat split;
    rewrite (countChar_encoded _ h), (countChar_encoded _ e);
    auto; reflexivity.
Qed.

Lemma getApiUrl_dev_shape_witness :
  exists h e,
    encodeURIComponent (lit "host:8000") = Some h
    /\ encodeURIComponent (lit "sessions?user_id=a&b=c") = Some e
    /\ h = lit "host%3A8000"
    /\ e = lit "sessions%3Fuser_id%3Da%26b%3Dc".
Proof.
  destruct (getApiUrl_dev_shape
              (lit "host:8000") (lit "sessions?user_id=a&b=c")
              (lit "/api/proxy?host=host%3A8000&endpoint=sessions%3Fuser_id%3Da%26b%3Dc")
              eq_refl) as [h [e [Hh [He _]]]].
  exists h, e. split; [exact Hh|]. split; [exact He|].
  vm_compute in Hh, He. inversion Hh. inversion He. split; reflexivity.
Defined.

(** X22.  Outside development mode [getApiUrl] is
    [http://host/endpoint] with both parts as given.  In development mode
    it throws only on a surrogate code unit: when host and endpoint hold
    none it returns an address, and when they hold only unreserved
    characters they appear in it unchanged. *)
Theorem getApiUrl_defined (host endpoint : jsstring) :
  getApiUrl false host endpoint
  = Some (lit "http://" ++ host ++ lit "/" ++ endpoint)
  /\ (forallb (fun c => negb (isSurrogate c)) (host ++ endpoint) = true ->
      exists url, getApiUrl true host endpoint = Some url)
  /\ (forallb isUriUnreserved (host ++ endpoint) = true ->
      getApiUrl true host endpoint
      = Some (lit "/api/proxy?host=" ++ host ++ lit "&endpoint=" ++ endpoint)).
Proof.
  split; [reflexivity|]. split.
  - intros H. rewrite forallb_app in H. apply andb_true_iff in H.
    destruct H as [Hh He].
    destruct (encodeURIComponent_defined host Hh) as [h Eh].
    destruct (encodeURIComponent_defined endpoint He) as [e Ee].
    unfold getApiUrl. rewrite Eh, Ee. eexists. reflexivity.
  - intros H. rewrite forallb_app in H. apply andb_true_iff in H.
    destruct H as [Hh He]. unfold getApiUrl.
    rewrite (encodeURIComponent_unreserved host Hh),
      (encodeURIComponent_unreserved endpoint He).
    reflexivity.
Qed.

(** Known encodings: a two-octet, a three-octet and a surrogate-pair
    character; a lone surrogate throws. *)
Example encodeURIComponent_samples :
  encodeURIComponent [233%N] = Some (lit "%C3%A9")
  /\ encodeURIComponent [8364%N] = Some (lit "%E2%82%AC")
  /\ encodeURIComponent [55357%N; 56832%N] = Some (lit "%F0%9F%98%80")
  /\ encodeURIComponent [55357%N] = None
  /\ encodeURIComponent (lit "a b") = Some (lit "a%20b").
Proof. repeat split. Qed.

(* ================================================================== *)
(** ** Further properties: titles and runs *)
(* ================================================================== *)

Lemma trimStart_length (s : jsstring) :
  (List.length (trimStart s) <= List.length s)%nat.
Proof.
  induction s as [|c s IH]; simpl; [lia|].
  destruct (isWhiteSpace c); simpl; lia.
Qed.

Lemma trim_length (s : jsstring) :
  (List.length (trim s) <= List.length s)%nat.
Proof.
  unfold trim, trimEnd. rewrite length_rev.
  pose proof (trimStart_length (rev (trimStart s))) as H1.
  rewrite length_rev in H1.
  pose proof (trimStart_length s). lia.
Qed.

Lemma findBreakPoint_bounds (content : jsstring) (chars : list N) :
  12 <= findBreakPoint content chars 30 <= 31.
Proof.
  induction chars as [|ch chars IH]; cbn [findBreakPoint]; [lia|].
  destruct (Z.ltb_spec 10 (lastIndexOf content ch 30)); [|exact IH].
  destruct (lastIndexOf_spec content ch 30) as [[Hr _] | [Hr _]]; lia.
Qed.

(** X23.  A derived title is never longer than 34 characters.  For a
    content longer than 30 it is a trimmed prefix of 12 to 31 characters of
    the content followed by ["..."]; it is empty only for the empty
    content. *)
Theorem createTitleFromContent_bounds (content : jsstring) :
  JS.length (createTitleFromContent content) <= 34
  /\ (30 < JS.length content ->
      exists k,
        12 <= k <= 31
        /\ createTitleFromContent content
           = trim (firstn (Z.to_nat k) content) ++ lit "...")
  /\ (createTitleFromContent content = [] <-> content = []).
Proof.
  unfold createTitleFromContent, JS.length.
  pose proof (findBreakPoint_bounds content breakPoints) as Hb.
  destruct (Z.leb_spec (Z.of_nat (List.length content)) 30) as [Hle | Hgt].
  - split; [lia|]. split; [lia | tauto].
  - rewrite substring_prefix by lia. split.
    + rewrite length_app.
      pose proof (trim_length
                    (firstn (Z.to_nat (findBreakPoint content breakPoints 30))
                            content)) as Ht.
      rewrite length_firstn in Ht.
      change (List.length (lit "...")) with 3%nat. lia.
    + split.
      * intros _. exists (findBreakPoint content breakPoints 30).
        split; [exact Hb | reflexivity].
      * split.
        -- intros H. apply app_eq_nil in H. destruct H as [_ H].
           discriminate.
        -- intros ->. cbn in Hgt. lia.
Qed.

Lemma createTitleFromContent_bounds_witness :
  exists k,
    12 <= k <= 31
    /\ createTitleFromContent mixedContent
       = trim (firstn (Z.to_nat k) mixedContent) ++ lit "...".
Proof.
  apply (proj1 (proj2 (createTitleFromContent_bounds mixedContent))).
  reflexivity.
Defined.

Lemma run_uniqueIds_witness : uniqueIds (run quietRun emptyStore).
Proof.
  apply (run_uniqueIds quietRun emptyStore).
  - constructor.
  - cbn [runKeepsIdsApart quietRun keepsIdsApart].
    repeat split.
    + intros Hw. vm_compute in Hw. discriminate.
    + intros data Hd. inversion Hd; subst. left. reflexivity.
Defined.

(* ================================================================== *)
(** ** Further properties: the first exchange and the fetch effect *)
(* ================================================================== *)

Lemma addMessage_isConnected now rnd content role (st : ChatStore) :
  isConnected (addMessage now rnd content role st) = isConnected st.
Proof.
  unfold addMessage.
  destruct (whenTruthy (currentConversationId st)) as [cid|]; [|reflexivity].
  destruct (find (hasId cid) (conversations st)); reflexivity.
Qed.

Lemma sendMessage_without_current now1 rnd1 now2 rnd2 content data
      sessionsResponse (st : ChatStore) :
  whenTruthy (currentConversationId st) = None ->
  truthy (ChatResponse.generation data) = true ->
  truthy (ChatResponse.session_id data) = true ->
  snd (sendMessage now1 rnd1 now2 rnd2 content (Ok data) sessionsResponse st)
  = set_isLoading false
      (loadSessions sessionsResponse
         (set_currentConversationId (Some (ChatResponse.session_id data))
            (set_isLoading true
               (addMessage now2 rnd2 (ChatResponse.generation data) assistant
                  (addMessage now1 rnd1 content user st))))).
Proof.
  intros Hw Hg Hs. unfold sendMessage. cbn [snd].
  rewrite Hg, Hs, Hw. cbn [negb andb orb].
  rewrite !addMessage_set_isLoading. reflexivity.
Qed.

(** X24.  The first exchange of a connected store, followed by the fetch
    effect.  With no current conversation on entry, once the response has
    named a session [S] that keys no conversation and differs from the id
    the append minted, the current id [S] keys no conversation, and the
    effect fires for [S] as soon as the refreshed list shows it.  After
    the effect has loaded the transcript, [S] is current and keys exactly
    one conversation, placed last; the conversation minted by the append
    is still in front, under its temporary id. *)
Theorem first_exchange_then_fetch
        (now1 : Date) (rnd1 : N) (now2 : Date) (rnd2 : N)
        (content : jsstring) (data : ChatResponse.t)
        (refreshedList : list Session.t)
        (response : http ConversationResponse.t)
        (msgs : list ApiMessage.t) (metadata : Metadata.t)
        (st : ChatStore) :
  whenTruthy (currentConversationId st) = None ->
  isConnected st = true ->
  truthy (ChatResponse.generation data) = true ->
  truthy (ChatResponse.session_id data) = true ->
  ~ In (ChatResponse.session_id data) (conversationIds st) ->
  uuidv4 rnd1 <> ChatResponse.session_id data ->
  (exists s, In s refreshedList
             /\ Session.session_id s = ChatResponse.session_id data) ->
  transcript response msgs metadata ->
  let st1 :=
    snd (sendMessage now1 rnd1 now2 rnd2 content (Ok data)
                     (Ok (SessionsResponse.mk (Some refreshedList))) st) in
  let st2 := fetchConversation response st1 in
  keyedCount (ChatResponse.session_id data) st1 = 0%nat
  /\ shouldLoadConversation st1 = Some (ChatResponse.session_id data)
  /\ currentConversationId st2 = Some (ChatResponse.session_id data)
  /\ keyedCount (ChatResponse.session_id data) st2 = 1%nat
  /\ conversationIds st2
     = uuidv4 rnd1 :: conversationIds st ++ [ChatResponse.session_id data].
Proof.
  intros Hw Hconn Hg Hs Hnew Hne [s [Hsin Hsid]] Ht st1 st2.
  set (S := ChatResponse.session_id data) in *.
  set (st3 := addMessage now2 rnd2 (ChatResponse.generation data) assistant
                (addMessage now1 rnd1 content user st)).
  assert (Hst1 : st1 = set_isLoading false
                         (set_sessions refreshedList
                            (set_currentConversationId (Some S) st3))).
  { unfold st1. rewrite (sendMessage_without_current _ _ _ _ _ _ _ _ Hw Hg Hs).
    reflexivity. }
  assert (Hids3 : conversationIds st3 = uuidv4 rnd1 :: conversationIds st).
  { destruct (addMessage_ids now1 rnd1 content user st)
      as [[_ Hids2] | [cid [Hcid _]]]; [|congruence].
    destruct (addMessage_current_last now1 rnd1 content user st)
      as [cid2 [c2 [b2 [Hcur2 [Ht2 _]]]]].
    assert (Hw2 : whenTruthy
                    (currentConversationId
                       (addMessage now1 rnd1 content user st)) = Some cid2)
      by (apply whenTruthy_Some; auto).
    destruct (addMessage_ids now2 rnd2 (ChatResponse.generation data)
                assistant (addMessage now1 rnd1 content user st))
      as [[Hn _] | [cid [Hcid [_ [Hin [Heq | [Hnot Heq]]]]]]].
    - congruence.
    - unfold st3. rewrite Heq. exact Hids2.
    - exfalso. apply Hnot. rewrite Hids2.
      assert (Hc2 : cid2 = uuidv4 rnd1).
      { rewrite (addMessage_mint now1 rnd1 content user st Hw) in Hcur2.
        cbn in Hcur2. congruence. }
      assert (cid = cid2) by congruence. subst. left. reflexivity. }
  assert (HnoS : forall c, In c (conversations st3) -> hasId S c = false).
  { intros c Hin. apply hasId_false_iff. intros Hc.
    assert (HinS : In S (conversationIds st3)).
    { unfold conversationIds, idsOf. apply in_map_iff. exists c. auto. }
    rewrite Hids3 in HinS. destruct HinS as [Hu | Hold]; auto. }
  assert (Hkeys1 : keyedCount S st1 = 0%nat).
  { rewrite Hst1. unfold keyedCount.
    cbn [conversations set_isLoading set_sessions set_currentConversationId].
    rewrite (filter_none _ _ HnoS). reflexivity. }
  assert (Hshould : shouldLoadConversation st1 = Some S).
  { rewrite Hst1. unfold shouldLoadConversation.
    cbn [conversations sessions currentConversationId isConnected
         set_isLoading set_sessions set_currentConversationId whenTruthy].
    rewrite Hs.
    assert (He : existsb (hasId S) (conversations st3) = false).
    { destruct (existsb (hasId S) (conversations st3)) eqn:He; [|reflexivity].
      apply existsb_exists in He. destruct He as [c [Hin Hc]].
      rewrite (HnoS c Hin) in Hc. discriminate. }
    assert (Hl : existsb (hasSessionId S) refreshedList = true).
    { apply existsb_exists. exists s. split; [exact Hsin|].
      apply hasSessionId_true_iff. exact Hsid. }
    assert (Hc3 : isConnected st3 = true).
    { unfold st3. rewrite !addMessage_isConnected. exact Hconn. }
    rewrite He, Hl, Hc3. reflexivity. }
  split; [exact Hkeys1|]. split; [exact Hshould|].
  unfold st2, fetchConversation. rewrite Hshould.
  rewrite (loadConversation_transcript _ _ _ _ _ Ht).
  unfold keyedCount, conversationIds, idsOf, othersThan.
  cbn [conversations currentConversationId set_isLoading
       set_currentConversationId set_conversations].
  assert (Hothers : filter (fun c => negb (hasId S c)) (conversations st1)
                    = conversations st3).
  { rewrite Hst1.
    cbn [conversations set_isLoading set_sessions set_currentConversationId].
    apply filter_all. intros c Hin. rewrite (HnoS c Hin). reflexivity. }
  rewrite Hothers. split; [reflexivity|]. split.
  - rewrite filter_app, (filter_none _ _ HnoS). cbn [filter app].
    rewrite hasId_fromTranscript. reflexivity.
  - rewrite map_app. cbn [List.map].
    change (List.map Conversation.id (conversations st3))
      with (conversationIds st3).
    rewrite Hids3. reflexivity.
Qed.

Lemma first_exchange_then_fetch_witness :
  conversationIds
    (fetchConversation (Ok (transcriptOf sessionC))
       (snd (sendMessage (DateNow 1) 7 (DateNow 2) 8 shortContent
                         (Ok (replyWith sessionC))
                         (Ok (SessionsResponse.mk (Some [summaryOf sessionC])))
                         connectedStore)))
  = [uuidv4 7; sessionC].
Proof.
  refine (proj2 (proj2 (proj2 (proj2
            (first_exchange_then_fetch
               (DateNow 1) 7 (DateNow 2) 8 shortContent (replyWith sessionC)
               [summaryOf sessionC] (Ok (transcriptOf sessionC))
               [ApiMessage.mk user (lit "Hello");
                ApiMessage.mk assistant (lit "Hi")]
               (Metadata.mk (lit "2025-01-01T00:00:00Z")
                            (lit "2025-01-02T00:00:00Z") 2
                            (lit "Quarterly numbers"))
               connectedStore eq_refl eq_refl eq_refl eq_refl _ _ _ _))))).
  - intros [].
  - vm_compute. discriminate.
  - exists (summaryOf sessionC). split; [left|]; reflexivity.
  - exists (transcriptOf sessionC). repeat split.
Defined.
